(** * Multi-Feed Alpha Generation System: a shallow embedding

    The streaming analytics core (candle aggregation, microstructure,
    order flow, regime detection) and the backtest core (position
    tracker, backtester, performance metrics) of the C++ sources are
    transcribed as Rocq functions, and the properties stated for them are
    proved, or refuted on explicit inputs.

    Numbers.  A C++ [double] is idealised as follows.
    - Components that only add, subtract, multiply, divide and compare,
      and whose divisions are guarded, use exact rationals [Q]; their
      definitions evaluate with [vm_compute].
    - [computeRollSpread] takes a square root and is modelled over [R].
    - [regime::hurstExponent] takes logarithms of values that can be
      zero; there the IEEE result is an infinity and then a NaN, so it is
      modelled over reals extended with the special values.
    - Where a property turns on the rounding of a quotient or on a
      division by zero, the functions concerned ([OrderFlowImbalance],
      [MicrostructureAnalyzer]) are transcribed a second time over the
      binary64 numbers of the kernel, in the module [Binary64], and
      evaluated there.
    In the first three models rounding and overflow are not represented:
    what is proved over them is stated as ranges, orderings and the
    operations the code performs, in the order in which it performs
    them.

    Containers.  [std::deque] and [std::vector] are lists with
    [push_back x] = [l ++ [x]] and [pop_front] = [tail]; [std::map] is a
    [gmap]; [size_t] quantities are [nat]. *)

From Stdlib Require Import QArith Qabs Reals Psatz List ZArith.
From stdpp Require Import gmap strings list fin_maps.
From Stdlib Require Floats.PrimFloat Uint63.

#[local] Set Warnings "-inexact-float".

Local Open Scope string_scope.
Local Open Scope list_scope.
Local Open Scope Q_scope.

(* ===================================================================== *)
(** * Part I: the embedding                                               *)
(* ===================================================================== *)

(** ** Arithmetic on doubles idealised as rationals *)

(** [std::max(a, b)] returns [(a < b) ? b : a]. *)
Definition dmax (a b : Q) : Q := if Qlt_le_dec a b then b else a.

(** [std::min(a, b)] returns [(b < a) ? b : a]. *)
Definition dmin (a b : Q) : Q := if Qlt_le_dec b a then b else a.

(** [x > y] and [x >= y] on doubles, as booleans. *)
Definition dgt (x y : Q) : bool := if Qlt_le_dec y x then true else false.
Definition dge (x y : Q) : bool := if Qlt_le_dec x y then false else true.
Definition dlt (x y : Q) : bool := dgt y x.
Definition dle (x y : Q) : bool := dge y x.

(** [std::accumulate(first, last, 0.0)]. *)
Definition accumulate (l : list Q) : Q := fold_left Qplus l 0.

(** Conversion of a [size_t] to [double]. *)
Definition ofNat (n : nat) : Q := inject_Z (Z.of_nat n).

(** ** util/market_types.h *)

Module Market.

Record MarketTick := mkTick {
  symbol : string;
  price : Q;
  volume : Q;
  timestamp : Z            (* long, milliseconds since epoch *)
}.

End Market.

(** ** feeds/candle_aggregator: time-bucketed OHLCV *)

Module CandleAggregator.

(** A [system_clock::time_point] is its count of clock periods since the
    epoch. *)
Definition time_point := Z.

Record Candle := mkCandle {
  open : Q;
  high : Q;
  low : Q;
  close : Q;
  cvolume : Q;
  startTime : time_point;
  endTime : time_point
}.

Record t := mkAgg {
  intervalSeconds : Z;
  hasCandle : bool;
  candleStart : time_point;
  currentCandle : Candle;
  onCandleClosed : bool      (* whether a callback is registered *)
}.

Section Clock.

(** Periods of [system_clock] per second (implementation defined). *)
Variable periodsPerSecond : Z.

(** [duration_cast<seconds>(d).count()]: truncation toward zero. *)
Definition toSeconds (d : Z) : Z := Z.quot d periodsPerSecond.

(** The constructor; the candle fields are not initialised by the source
    and are never read before the first tick sets them. *)
Definition create (interval : Z) (cb : bool) : t :=
  mkAgg interval false 0%Z (mkCandle 0 0 0 0 0 0%Z 0%Z) cb.

(** [CandleAggregator::onTick].  The result pairs the new state with the
    candle handed to [onCandleClosed], if the callback ran. *)
Definition onTick (a : t) (p v : Q) (ts : time_point) : t * option Candle :=
  if negb (hasCandle a) then
    (mkAgg (intervalSeconds a) true ts (mkCandle p p p p v ts ts)
           (onCandleClosed a), None)
  else
    let elapsed := toSeconds (ts - candleStart a)%Z in
    let c := currentCandle a in
    let c' := mkCandle (open c) (dmax (high c) p) (dmin (low c) p) p
                       (cvolume c + v) (startTime c) ts in
    if (intervalSeconds a <=? elapsed)%Z then
      (mkAgg (intervalSeconds a) true ts (mkCandle p p p p 0 ts ts)
             (onCandleClosed a),
       if onCandleClosed a then Some c' else None)
    else
      (mkAgg (intervalSeconds a) true (candleStart a) c' (onCandleClosed a),
       None).

End Clock.

End CandleAggregator.

(** ** backtest/sharpe: performance metrics *)

Module Sharpe.

Section Sqrt.

(** [std::sqrt] has no rational model; the metrics that use it take it as
    a parameter. *)
Variable dsqrt : Q -> Q.

Definition mean (data : list Q) : Q :=
  match data with
  | [] => 0
  | _ => accumulate data / ofNat (length data)
  end.

Definition stddev (data : list Q) : Q :=
  if (length data <? 2)%nat then 0
  else
    let m := mean data in
    let variance := fold_left (fun acc v => acc + (v - m) * (v - m)) data 0 in
    dsqrt (variance / ofNat (length data - 1)).

Definition computeSharpeRatio
  (returns : list Q) (riskFreeRate periodsPerYear : Q) : Q :=
  if (length returns <? 2)%nat then 0
  else
    let meanReturn := mean returns in
    let sd := stddev returns in
    if dlt sd 1e-10 then 0
    else
      let dailyRiskFree := riskFreeRate / periodsPerYear in
      let excessReturn := meanReturn - dailyRiskFree in
      (excessReturn / sd) * dsqrt periodsPerYear.

End Sqrt.

(** [computeMaxDrawdown]: the loop carries [(peak, maxDD)]. *)
Definition computeMaxDrawdown (equityCurve : list Q) : Q :=
  match equityCurve with
  | [] => 0
  | e0 :: _ =>
      snd (fold_left
             (fun (st : Q * Q) equity =>
                let peak := dmax (fst st) equity in
                let drawdown := peak - equity in
                (peak, dmax (snd st) drawdown))
             equityCurve (e0, 0))
  end.

(** [computeProfitFactor]: the loop carries [(sumWins, sumLosses)]. *)
Definition computeProfitFactor (returns : list Q) : Q :=
  match returns with
  | [] => 0
  | _ =>
      let '(sumWins, sumLosses) :=
        fold_left
          (fun (st : Q * Q) r =>
             if dgt r 0 then (fst st + r, snd st)
             else (fst st, snd st + Qabs r))
          returns (0, 0) in
      if dgt sumLosses 0 then sumWins / sumLosses else 0
  end.

End Sharpe.

(** ** backtest/pnl: the position tracker *)

Module PnLTracker.

Inductive CostMethod := FIFO | LIFO | AVERAGE.

Record Position := mkPosition {
  symbol : string;
  quantity : Q;
  avgEntryPrice : Q;
  currentPrice : Q;
  unrealizedPnL : Q;
  realizedPnL : Q;
  totalCost : Q
}.

(** A transaction as recorded in the history.  The source also stamps it
    with the wall clock reading at the call, which no operation reads
    back; that stamp is left out. *)
Record Transaction := mkTransaction {
  txSymbol : string;
  txQuantity : Q;
  txPrice : Q;
  txType : string
}.

Record t := mkTracker {
  method_ : CostMethod;
  initialCash_ : Q;
  cash_ : Q;
  positions_ : gmap string Position;
  realizedPnL_ : gmap string Q;
  transactions_ : list Transaction
}.

Definition create (initialCash : Q) (method : CostMethod) : t :=
  mkTracker method initialCash initialCash ∅ ∅ [].

(** [realizedPnL_[symbol] += pnl]; [operator[]] inserts 0.0 for a fresh
    key. *)
Definition addRealized (m : gmap string Q) (sym : string) (pnl : Q)
  : gmap string Q :=
  <[sym := default 0 (m !! sym) + pnl]> m.

Definition updatePositionCost
  (method : CostMethod) (pos : Position) (qty price : Q) : Position :=
  match method with
  | AVERAGE =>
      let totalQuantity := quantity pos + qty in
      let avg := (avgEntryPrice pos * Qabs (quantity pos) + price * Qabs qty)
                 / Qabs totalQuantity in
      mkPosition (symbol pos) totalQuantity avg (currentPrice pos)
                 (unrealizedPnL pos) (realizedPnL pos)
                 (Qabs totalQuantity * avg)
  | FIFO | LIFO =>
      let totalQuantity := quantity pos + qty in
      let avg := (avgEntryPrice pos * Qabs (quantity pos) + price * Qabs qty)
                 / Qabs totalQuantity in
      mkPosition (symbol pos) totalQuantity avg (currentPrice pos)
                 (unrealizedPnL pos) (realizedPnL pos)
                 (Qabs totalQuantity * avg)
  end.

(** The smallest position size that is kept. *)
Definition dust : Q := 1e-8.

Definition addPosition (tr : t) (sym : string) (qty price : Q) : t :=
  let '(positions', realized') :=
    match positions_ tr !! sym with
    | None =>
        (<[sym := mkPosition sym qty price price 0 0 (Qabs qty * price)]>
           (positions_ tr),
         realizedPnL_ tr)
    | Some pos =>
        if (dgt (quantity pos) 0 && dgt qty 0)
           || (dlt (quantity pos) 0 && dlt qty 0)
        then
          (<[sym := updatePositionCost (method_ tr) pos qty price]>
             (positions_ tr),
           realizedPnL_ tr)
        else
          let closeQuantity := dmin (Qabs qty) (Qabs (quantity pos)) in
          let pnl := (price - avgEntryPrice pos) * closeQuantity
                     * (if dgt (quantity pos) 0 then 1 else -1) in
          let q' := quantity pos + qty in
          (if dlt (Qabs q') dust then delete sym (positions_ tr)
           else <[sym := mkPosition (symbol pos) q' price (currentPrice pos)
                           (unrealizedPnL pos) (realizedPnL pos + pnl)
                           (Qabs q' * price)]> (positions_ tr),
           addRealized (realizedPnL_ tr) sym pnl)
    end in
  mkTracker (method_ tr) (initialCash_ tr)
            (cash_ tr - qty * price)
            positions' realized'
            (transactions_ tr ++
             [mkTransaction sym qty price (if dgt qty 0 then "BUY" else "SELL")]).

Definition closePosition (tr : t) (sym : string) (price : Q) : t :=
  match positions_ tr !! sym with
  | None => tr
  | Some pos =>
      let pnl := (price - avgEntryPrice pos) * quantity pos in
      mkTracker (method_ tr) (initialCash_ tr)
                (cash_ tr + quantity pos * price)
                (delete sym (positions_ tr))
                (addRealized (realizedPnL_ tr) sym pnl)
                (transactions_ tr ++
                 [mkTransaction sym (- quantity pos) price "CLOSE"])
  end.

Definition closePartialPosition (tr : t) (sym : string) (qty price : Q) : t :=
  match positions_ tr !! sym with
  | None => tr
  | Some pos =>
      let closeQty := dmin (Qabs qty) (Qabs (quantity pos)) in
      if (dgt (quantity pos) 0 && dlt qty 0)
         || (dlt (quantity pos) 0 && dgt qty 0)
      then
        let pnl := (price - avgEntryPrice pos) * closeQty
                   * (if dgt (quantity pos) 0 then 1 else -1) in
        let q' := quantity pos + qty in
        mkTracker (method_ tr) (initialCash_ tr)
                  (cash_ tr + closeQty * price * (if dlt qty 0 then -1 else 1))
                  (if dlt (Qabs q') dust then delete sym (positions_ tr)
                   else <[sym := mkPosition (symbol pos) q' (avgEntryPrice pos)
                                   (currentPrice pos) (unrealizedPnL pos)
                                   (realizedPnL pos + pnl) (totalCost pos)]>
                          (positions_ tr))
                  (addRealized (realizedPnL_ tr) sym pnl)
                  (transactions_ tr ++
                   [mkTransaction sym qty price "PARTIAL_CLOSE"])
      else tr
  end.

Definition updatePrice (tr : t) (sym : string) (price : Q) : t :=
  match positions_ tr !! sym with
  | None => tr
  | Some pos =>
      mkTracker (method_ tr) (initialCash_ tr) (cash_ tr)
                (<[sym := mkPosition (symbol pos) (quantity pos)
                            (avgEntryPrice pos) price
                            ((price - avgEntryPrice pos) * quantity pos)
                            (realizedPnL pos) (totalCost pos)]>
                   (positions_ tr))
                (realizedPnL_ tr) (transactions_ tr)
  end.

Definition reset (tr : t) : t :=
  mkTracker (method_ tr) (initialCash_ tr) (initialCash_ tr) ∅ ∅ [].

(** The public mutating operations, as data. *)
Inductive Op :=
| AddPosition (sym : string) (qty price : Q)
| ClosePosition (sym : string) (price : Q)
| ClosePartialPosition (sym : string) (qty price : Q)
| UpdatePrice (sym : string) (price : Q).

Definition apply (tr : t) (op : Op) : t :=
  match op with
  | AddPosition sym qty price => addPosition tr sym qty price
  | ClosePosition sym price => closePosition tr sym price
  | ClosePartialPosition sym qty price => closePartialPosition tr sym qty price
  | UpdatePrice sym price => updatePrice tr sym price
  end.

Definition applyAll (tr : t) (ops : list Op) : t := fold_left apply ops tr.

End PnLTracker.

(** ** backtest/backtester: replay with slippage and commission *)

Module Backtester.

Record BacktestConfig := mkConfig {
  initialCapital : Q;
  commissionRate : Q;
  slippageBps : Q;
  latencyMs : Q;
  maxPositionSize : Q;
  enableShortSelling : bool;
  enableMarginTrading : bool;
  marginRequirement : Q
}.

(** The default member initialisers of [BacktestConfig]. *)
Definition defaultConfig : BacktestConfig :=
  mkConfig 10000 0.001 2 10 0.5 true false 0.5.

Record Trade := mkTrade {
  symbol : string;
  timestamp : Z;
  entryPrice : Q;
  exitPrice : Q;
  quantity : Q;
  isLong : bool;
  pnl : Q;
  commission : Q;
  slippage : Q;
  entryReason : string;
  exitReason : string
}.

Record BacktestResult := mkResult {
  trades : list Trade;
  totalPnL : Q;
  totalReturn : Q;
  sharpeRatio : Q;
  maxDrawdown : Q;
  winRate : Q;
  numTrades : nat;
  numWinningTrades : nat;
  numLosingTrades : nat;
  avgWin : Q;
  avgLoss : Q;
  profitFactor : Q;
  expectancy : Q;
  equityCurve : list Q;
  timestamps : list Z
}.

(** The members of [Backtester]. *)
Record t := mkBacktester {
  config_ : BacktestConfig;
  pnlTracker_ : PnLTracker.t;
  currentPosition_ : Q;
  avgEntryPrice_ : Q;
  currentCash_ : Q
}.

Definition create (config : BacktestConfig) : t :=
  mkBacktester config
    (PnLTracker.create (initialCapital config) PnLTracker.AVERAGE)
    0 0 (initialCapital config).

Definition applySlippage (bt : t) (price qty : Q) (isBuy : bool) : Q :=
  let slippageFactor :=
    1 + (if isBuy then 1 else -1) * (slippageBps (config_ bt) / 10000) in
  price * slippageFactor.

Definition calculateCommission (bt : t) (notional : Q) : Q :=
  notional * commissionRate (config_ bt).

Definition canEnterPosition (bt : t) (price qty : Q) : bool :=
  let notional := price * Qabs qty in
  let requiredCapital :=
    notional * (if enableMarginTrading (config_ bt)
                then marginRequirement (config_ bt) else 1) in
  dle requiredCapital (currentCash_ bt * maxPositionSize (config_ bt)).

(** [enterPosition]; the line it prints is not modelled. *)
Definition enterPosition
  (bt : t) (tick : Market.MarketTick) (qty : Q) (long : bool) (reason : string)
  : t :=
  let executionPrice := applySlippage bt (Market.price tick) qty long in
  let notional := executionPrice * Qabs qty in
  let fee := calculateCommission bt notional in
  mkBacktester (config_ bt)
    (PnLTracker.addPosition (pnlTracker_ bt) (Market.symbol tick) qty
                            executionPrice)
    qty executionPrice (currentCash_ bt - (notional + fee)).

(** [exitPosition]; the line it prints (which carries the realised PnL of
    the position) is not modelled. *)
Definition exitPosition (bt : t) (tick : Market.MarketTick) (reason : string)
  : t :=
  if Qeq_bool (currentPosition_ bt) 0 then bt
  else
    let long := dgt (currentPosition_ bt) 0 in
    let executionPrice :=
      applySlippage bt (Market.price tick) (Qabs (currentPosition_ bt))
                    (negb long) in
    let notional := executionPrice * Qabs (currentPosition_ bt) in
    let fee := calculateCommission bt notional in
    mkBacktester (config_ bt)
      (PnLTracker.closePosition (pnlTracker_ bt) (Market.symbol tick)
                                executionPrice)
      0 0 (currentCash_ bt + (notional - fee)).

Section Sqrt.

Variable dsqrt : Q -> Q.

(** The first loop of [computeResults] carries
    [(totalPnL, totalWin, totalLoss, numWinningTrades, numLosingTrades)]. *)
Definition tallyStep (acc : Q * Q * Q * nat * nat) (trade : Trade)
  : Q * Q * Q * nat * nat :=
  let '(total, totalWin, totalLoss, nWin, nLoss) := acc in
  let total' := total + pnl trade in
  if dgt (pnl trade) 0 then
    (total', totalWin + pnl trade, totalLoss, S nWin, nLoss)
  else if dlt (pnl trade) 0 then
    (total', totalWin, totalLoss + Qabs (pnl trade), nWin, S nLoss)
  else (total', totalWin, totalLoss, nWin, nLoss).

Definition tally (trs : list Trade) : Q * Q * Q * nat * nat :=
  fold_left tallyStep trs (0, 0, 0, 0%nat, 0%nat).

(** [computeResults].  [BacktestResult result;] is default constructed:
    its two vectors are empty, and no statement of the function assigns
    them. *)
Definition computeResults (bt : t) (trs : list Trade) : BacktestResult :=
  let resultEquityCurve : list Q := [] in
  let resultTimestamps : list Z := [] in
  match trs with
  | [] =>
      mkResult trs 0 0 0 0 0 (length trs) 0 0 0 0 0 0
               resultEquityCurve resultTimestamps
  | _ =>
      let '(total, totalWin, totalLoss, nWin, nLoss) := tally trs in
      let n := length trs in
      let totalRet := (total / initialCapital (config_ bt)) * 100 in
      let wr := ofNat nWin / ofNat n in
      let aWin := if (0 <? nWin)%nat then totalWin / ofNat nWin else 0 in
      let aLoss := if (0 <? nLoss)%nat then totalLoss / ofNat nLoss else 0 in
      let pf := if dgt aLoss 0 then aWin / aLoss else 0 in
      let expct := total / ofNat n in
      let returns := map (fun tr => pnl tr / initialCapital (config_ bt)) trs in
      mkResult trs total totalRet
               (Sharpe.computeSharpeRatio dsqrt returns 0 252)
               (Sharpe.computeMaxDrawdown resultEquityCurve)
               wr n nWin nLoss aWin aLoss pf expct
               resultEquityCurve resultTimestamps
  end.

(** The signal generator is a [std::function] and may carry state of its
    own; the state is passed explicitly. *)
Variable G : Type.
Variable signalFunc : G -> Market.MarketTick -> Z * G.

(** The locals of [run] that the loop updates. *)
Record Loop := mkLoop {
  self : t;
  gen : G;
  ltrades : list Trade;
  lequityCurve : list Q;
  ltimestamps : list Z
}.

(** One iteration of the loop of [run]. *)
Definition step (l : Loop) (tick : Market.MarketTick) : Loop :=
  let '(signal, g') := signalFunc (gen l) tick in
  let bt := self l in
  let price := Market.price tick in
  let '(bt', trs') :=
    if (signal =? 1)%Z && dle (currentPosition_ bt) 0 then
      let maxQuantity :=
        (currentCash_ bt * maxPositionSize (config_ bt)) / price in
      (if canEnterPosition bt price maxQuantity
       then enterPosition bt tick maxQuantity true "SIGNAL_BUY"
       else bt,
       ltrades l)
    else if (signal =? -1)%Z && dge (currentPosition_ bt) 0 then
      let '(bt1, trs1) :=
        if dgt (currentPosition_ bt) 0 then
          let bt1 := exitPosition bt tick "SIGNAL_SELL" in
          (* the Trade is filled in from the members after the exit *)
          let trade :=
            mkTrade (Market.symbol tick) (Market.timestamp tick)
                    (avgEntryPrice_ bt1)
                    price
                    (currentPosition_ bt1)
                    true
                    ((price - avgEntryPrice_ bt1) * currentPosition_ bt1)
                    (calculateCommission bt1 (price * currentPosition_ bt1))
                    (applySlippage bt1 price (currentPosition_ bt1) false
                     - price)
                    "SIGNAL_BUY" "SIGNAL_SELL" in
          (bt1, ltrades l ++ [trade])
        else (bt, ltrades l) in
      (if enableShortSelling (config_ bt1) then
         let maxQuantity :=
           (currentCash_ bt1 * maxPositionSize (config_ bt1)) / price in
         if canEnterPosition bt1 price maxQuantity
         then enterPosition bt1 tick (- maxQuantity) false "SIGNAL_SELL"
         else bt1
       else bt1,
       trs1)
    else (bt, ltrades l) in
  let equity := currentCash_ bt' + currentPosition_ bt' * price in
  mkLoop
    (mkBacktester (config_ bt')
       (PnLTracker.updatePrice (pnlTracker_ bt') (Market.symbol tick) price)
       (currentPosition_ bt') (avgEntryPrice_ bt') (currentCash_ bt'))
    g' trs'
    (lequityCurve l ++ [equity])
    (ltimestamps l ++ [Market.timestamp tick]).

(** The body of [Backtester::run] up to its [return]: the members and
    the locals as they are when [computeResults] is called. *)
Definition runLoop (bt : t) (g : G) (historicalData : list Market.MarketTick)
  : Loop :=
  let bt0 := mkBacktester (config_ bt) (PnLTracker.reset (pnlTracker_ bt))
                          0 0 (initialCapital (config_ bt)) in
  let l := fold_left step historicalData (mkLoop bt0 g [] [] []) in
  match last historicalData with
  | Some lastTick =>
      if negb (Qeq_bool (currentPosition_ (self l)) 0)
      then mkLoop (exitPosition (self l) lastTick "END_OF_BACKTEST")
                  (gen l) (ltrades l) (lequityCurve l) (ltimestamps l)
      else l
  | None => l
  end.

(** [Backtester::run]: [return computeResults(trades);]. *)
Definition run (bt : t) (g : G) (historicalData : list Market.MarketTick)
  : BacktestResult :=
  let l := runLoop bt g historicalData in
  computeResults (self l) (ltrades l).

End Sqrt.

End Backtester.

(** ** alpha/orderflow *)

(** [std::sort] on doubles, as insertion sort. *)
Fixpoint insertSorted (x : Q) (l : list Q) : list Q :=
  match l with
  | [] => [x]
  | y :: l' => if dlt y x then y :: insertSorted x l' else x :: y :: l'
  end.

Definition stdSort (l : list Q) : list Q := fold_right insertSorted [] l.

(** [while (d.size() > window) d.pop_front();] drops the oldest
    [size - window] entries. *)
Definition popWhileOver {A : Type} (window : nat) (d : list A) : list A :=
  skipn (length d - window) d.

(** [if (d.size() > window) d.pop_front();] *)
Definition popIfOver {A : Type} (window : nat) (d : list A) : list A :=
  if (window <? length d)%nat then tail d else d.

Module OrderFlowImbalance.

Record OFIResult := mkOFIResult {
  imbalance : Q;
  bidPressure : Q;
  askPressure : Q;
  aggression : Q;
  momentum : Q;
  timestamp : Z
}.

Record t := mkOFI {
  window_ : nat;
  buyVolumes_ : list Q;
  sellVolumes_ : list Q;
  buyPrices_ : list Q;
  sellPrices_ : list Q;
  timestamps_ : list Z
}.

Definition create (window : nat) : t := mkOFI window [] [] [] [] [].

(** The window loop of [onTrade]: while the two volume queues together
    hold more than [window_] entries, drop the oldest entry of each queue
    that is not empty, and the oldest timestamp.  The recursion is on a
    bound for the number of iterations. *)
Fixpoint maintainWindow (fuel : nat) (o : t) : t :=
  match fuel with
  | O => o
  | S fuel' =>
      if (window_ o <? length (buyVolumes_ o) + length (sellVolumes_ o))%nat
      then
        maintainWindow fuel'
          (mkOFI (window_ o)
                 (tail (buyVolumes_ o)) (tail (sellVolumes_ o))
                 (tail (buyPrices_ o)) (tail (sellPrices_ o))
                 (tail (timestamps_ o)))
      else o
  end.

Definition onTrade (o : t) (price volume : Q) (isBuy : bool) (ts : Z) : t :=
  let o1 :=
    if isBuy then
      mkOFI (window_ o) (buyVolumes_ o ++ [volume]) (sellVolumes_ o)
            (buyPrices_ o ++ [price]) (sellPrices_ o) (timestamps_ o ++ [ts])
    else
      mkOFI (window_ o) (buyVolumes_ o) (sellVolumes_ o ++ [volume])
            (buyPrices_ o) (sellPrices_ o ++ [price]) (timestamps_ o ++ [ts])
  in
  maintainWindow (length (buyVolumes_ o1) + length (sellVolumes_ o1)) o1.

Definition computeImbalance (o : t) : Q :=
  let buyVol := accumulate (buyVolumes_ o) in
  let sellVol := accumulate (sellVolumes_ o) in
  let totalVol := buyVol + sellVol in
  if dlt totalVol 1e-10 then 0 else (buyVol - sellVol) / totalVol.

Definition computeAggression (o : t) : Q :=
  let allVolumes := buyVolumes_ o ++ sellVolumes_ o in
  match allVolumes with
  | [] => 0
  | _ =>
      let sorted := stdSort allVolumes in
      let median := nth (length sorted / 2) sorted 0 in
      let threshold := median * 1.5 in
      let largeCount :=
        length (List.filter (fun v => dgt v threshold) sorted) in
      ofNat largeCount / ofNat (length sorted)
  end.

(** The loop of [computeMomentum] carries
    [(recentBuy, recentSell, oldBuy, oldSell, buyIdx, sellIdx)]. *)
Definition momentumStep (o : t) (halfWindow : nat)
  (st : Q * Q * Q * Q * nat * nat) (i : nat) : Q * Q * Q * Q * nat * nat :=
  let '(recentBuy, recentSell, oldBuy, oldSell, buyIdx, sellIdx) := st in
  let isRecent := (halfWindow <=? i)%nat in
  let '(recentBuy1, oldBuy1, buyIdx1) :=
    if (buyIdx <? length (buyVolumes_ o))%nat then
      if isRecent
      then (recentBuy + nth buyIdx (buyVolumes_ o) 0, oldBuy, S buyIdx)
      else (recentBuy, oldBuy + nth buyIdx (buyVolumes_ o) 0, S buyIdx)
    else (recentBuy, oldBuy, buyIdx) in
  let '(recentSell1, oldSell1, sellIdx1) :=
    if (sellIdx <? length (sellVolumes_ o))%nat then
      if isRecent
      then (recentSell + nth sellIdx (sellVolumes_ o) 0, oldSell, S sellIdx)
      else (recentSell, oldSell + nth sellIdx (sellVolumes_ o) 0, S sellIdx)
    else (recentSell, oldSell, sellIdx) in
  (recentBuy1, recentSell1, oldBuy1, oldSell1, buyIdx1, sellIdx1).

Definition computeMomentum (o : t) : Q :=
  if (length (timestamps_ o) <? 2)%nat then 0
  else
    let halfWindow := (window_ o / 2)%nat in
    let '(recentBuy, recentSell, oldBuy, oldSell, _, _) :=
      fold_left (momentumStep o halfWindow)
                (seq 0 (length (timestamps_ o)))
                (0, 0, 0, 0, 0%nat, 0%nat) in
    let recentImb :=
      if dgt (recentBuy + recentSell) 0
      then (recentBuy - recentSell) / (recentBuy + recentSell) else 0 in
    let oldImb :=
      if dgt (oldBuy + oldSell) 0
      then (oldBuy - oldSell) / (oldBuy + oldSell) else 0 in
    recentImb - oldImb.

Definition getOFI (o : t) : option OFIResult :=
  match buyVolumes_ o, sellVolumes_ o with
  | [], [] => None
  | _, _ =>
      let imb := computeImbalance o in
      let aggr := computeAggression o in
      let mom := computeMomentum o in
      let buyVol := accumulate (buyVolumes_ o) in
      let sellVol := accumulate (sellVolumes_ o) in
      let totalVol := buyVol + sellVol in
      let bid := if dgt totalVol 0 then buyVol / totalVol else 0.5 in
      let ask := if dgt totalVol 0 then sellVol / totalVol else 0.5 in
      let ts := match last (timestamps_ o) with
                | Some t => t
                | None => 0%Z
                end in
      Some (mkOFIResult imb bid ask aggr mom ts)
  end.

End OrderFlowImbalance.

Module BidAskPressure.

Record PressureResult := mkPressureResult {
  bidVolume : Q;
  askVolume : Q;
  imbalanceRatio : Q;
  dominantSide : Q
}.

Record t := mkPressure {
  window_ : nat;
  bidVolumes_ : list Q;
  askVolumes_ : list Q
}.

Definition create (window : nat) : t := mkPressure window [] [].

Definition onTrade (p : t) (isBuy : bool) (volume : Q) : t :=
  let bid := if isBuy then bidVolumes_ p ++ [volume] else bidVolumes_ p in
  let ask := if isBuy then askVolumes_ p else askVolumes_ p ++ [volume] in
  mkPressure (window_ p) (popWhileOver (window_ p) bid)
             (popWhileOver (window_ p) ask).

Definition getPressure (p : t) : PressureResult :=
  let bidVol := accumulate (bidVolumes_ p) in
  let askVol := accumulate (askVolumes_ p) in
  let total := bidVol + askVol in
  let ratio := if dgt total 0 then (bidVol - askVol) / total else 0 in
  let dominant := if dgt ratio 0.1 then 1
                  else if dlt ratio (-0.1) then -1 else 0 in
  mkPressureResult bidVol askVol ratio dominant.

End BidAskPressure.

Module TradeAggression.

Record t := mkAggression {
  window_ : nat;
  aggressionScores_ : list Q
}.

Definition create (window : nat) : t := mkAggression window [].

Definition onTrade (a : t) (volume avgVolume : Q) (isBuy : bool) : t :=
  let score := if dgt avgVolume 0 then volume / avgVolume - 1 else 0 in
  let score := if isBuy then score else - score in
  mkAggression (window_ a)
    (popIfOver (window_ a) (aggressionScores_ a ++ [score])).

Definition getAggression (a : t) : Q :=
  match aggressionScores_ a with
  | [] => 0
  | _ => accumulate (aggressionScores_ a) / ofNat (length (aggressionScores_ a))
  end.

End TradeAggression.

Module VolumeDelta.

Record t := mkVolumeDelta {
  cumulativeDelta_ : Q;
  recentDeltas_ : list Q
}.

Definition RECENT_WINDOW : nat := 50.

Definition create : t := mkVolumeDelta 0 [].

Definition onTrade (d : t) (volume : Q) (isBuy : bool) : t :=
  let delta := if isBuy then volume else - volume in
  mkVolumeDelta (cumulativeDelta_ d + delta)
                (popIfOver RECENT_WINDOW (recentDeltas_ d ++ [delta])).

Definition getCumulativeDelta (d : t) : Q := cumulativeDelta_ d.

Definition reset (d : t) : t := mkVolumeDelta 0 [].

End VolumeDelta.

Module FlowToxicity.

Record ToxicityScore := mkToxicityScore {
  toxicity : Q;
  ofiComponent : Q;
  pressureComponent : Q;
  aggressionComponent : Q;
  isToxic : bool
}.

Record t := mkToxicity {
  threshold_ : Q;
  toxicity_ : Q;
  ofiWeight_ : Q;
  pressureWeight_ : Q;
  aggressionWeight_ : Q
}.

Definition create (toxicityThreshold : Q) : t :=
  mkToxicity toxicityThreshold 0 0.4 0.3 0.3.

Definition update (f : t) (ofi pressure aggr : Q) : t :=
  let ofiNorm := (Qabs ofi + 1) / 2 in
  let pressureNorm := (Qabs pressure + 1) / 2 in
  let aggressionNorm := dmin 1 (Qabs aggr) in
  mkToxicity (threshold_ f)
    (ofiWeight_ f * ofiNorm + pressureWeight_ f * pressureNorm
     + aggressionWeight_ f * aggressionNorm)
    (ofiWeight_ f) (pressureWeight_ f) (aggressionWeight_ f).

Definition getScore (f : t) : ToxicityScore :=
  mkToxicityScore (toxicity_ f)
    (ofiWeight_ f * toxicity_ f)
    (pressureWeight_ f * toxicity_ f)
    (aggressionWeight_ f * toxicity_ f)
    (dgt (toxicity_ f) (threshold_ f)).

End FlowToxicity.

Module OrderFlowEngine.

Record OrderFlowSignal := mkSignal {
  ofi : Q;
  bidPressure : Q;
  askPressure : Q;
  aggression : Q;
  volumeDelta : Q;
  toxicity : Q;
  isToxicFlow : bool;
  flowDirection : string;
  timestamp : Z
}.

Record t := mkEngine {
  ofi_ : OrderFlowImbalance.t;
  pressure_ : BidAskPressure.t;
  aggression_ : TradeAggression.t;
  volumeDelta_ : VolumeDelta.t;
  toxicity_ : FlowToxicity.t;
  avgVolume_ : Q;
  tickCount_ : nat
}.

(** The constructor; the members are built with the default arguments of
    their constructors (windows 100, 50 and 30, threshold 0.7). *)
Definition create : t :=
  mkEngine (OrderFlowImbalance.create 100) (BidAskPressure.create 50)
           (TradeAggression.create 30) VolumeDelta.create
           (FlowToxicity.create 0.7) 0 0.

Definition determineFlowDirection (ofiValue pressure : Q) : string :=
  let combined := (ofiValue + pressure) / 2 in
  if dgt combined 0.2 then "BUY_DOMINANT"
  else if dlt combined (-0.2) then "SELL_DOMINANT"
  else "NEUTRAL".

Definition onTick (e : t) (tick : Market.MarketTick) (isBuy : bool)
  : t * option OrderFlowSignal :=
  let tickCount := S (tickCount_ e) in
  let avgVolume :=
    (ofNat (tickCount - 1) * avgVolume_ e + Market.volume tick)
    / ofNat tickCount in
  let ofi1 := OrderFlowImbalance.onTrade (ofi_ e) (Market.price tick)
                (Market.volume tick) isBuy (Market.timestamp tick) in
  let pressure1 := BidAskPressure.onTrade (pressure_ e) isBuy
                     (Market.volume tick) in
  let aggression1 := TradeAggression.onTrade (aggression_ e)
                       (Market.volume tick) avgVolume isBuy in
  let volumeDelta1 := VolumeDelta.onTrade (volumeDelta_ e)
                        (Market.volume tick) isBuy in
  match OrderFlowImbalance.getOFI ofi1 with
  | None =>
      (mkEngine ofi1 pressure1 aggression1 volumeDelta1 (toxicity_ e)
                avgVolume tickCount,
       None)
  | Some ofiResult =>
      let pressureResult := BidAskPressure.getPressure pressure1 in
      let aggrScore := TradeAggression.getAggression aggression1 in
      let toxicity1 :=
        FlowToxicity.update (toxicity_ e)
          (OrderFlowImbalance.imbalance ofiResult)
          (BidAskPressure.imbalanceRatio pressureResult) aggrScore in
      let toxScore := FlowToxicity.getScore toxicity1 in
      let flowDir :=
        determineFlowDirection (OrderFlowImbalance.imbalance ofiResult)
          (BidAskPressure.imbalanceRatio pressureResult) in
      (mkEngine ofi1 pressure1 aggression1 volumeDelta1 toxicity1
                avgVolume tickCount,
       Some (mkSignal (OrderFlowImbalance.imbalance ofiResult)
                      (OrderFlowImbalance.bidPressure ofiResult)
                      (OrderFlowImbalance.askPressure ofiResult)
                      aggrScore
                      (VolumeDelta.getCumulativeDelta volumeDelta1)
                      (FlowToxicity.toxicity toxScore)
                      (FlowToxicity.isToxic toxScore)
                      flowDir (Market.timestamp tick)))
  end.

(** [OrderFlowEngine::reset], declared in the header under the comment
    "Reset all accumulators". *)
Definition reset (e : t) : t :=
  mkEngine (ofi_ e) (pressure_ e) (aggression_ e)
           (VolumeDelta.reset (volumeDelta_ e)) (toxicity_ e) 0 0.

End OrderFlowEngine.

(** ** main: the order-flow lane of the per-symbol pipeline *)

Module ProductionAlphaSystem.

(** Step 3 of [processMarketTick]: the side passed to the engine is
    [tick.price > lastPrice_], and [lastPrice_], which starts at 0, is
    set to the tick's price afterwards. *)
Fixpoint orderFlowLane (e : OrderFlowEngine.t) (lastPrice : Q)
  (ticks : list Market.MarketTick)
  : OrderFlowEngine.t * list (option OrderFlowEngine.OrderFlowSignal) :=
  match ticks with
  | [] => (e, [])
  | tick :: rest =>
      let isBuy := dgt (Market.price tick) lastPrice in
      let '(e1, out) := OrderFlowEngine.onTick e tick isBuy in
      let '(e2, outs) := orderFlowLane e1 (Market.price tick) rest in
      (e2, out :: outs)
  end.

End ProductionAlphaSystem.

(** ** alpha/microstructure: trade classification and VPIN *)

Module MicrostructureAnalyzer.

Inductive TradeSide := BUY | SELL | UNKNOWN.

Definition isBUY (s : TradeSide) : bool :=
  match s with BUY => true | _ => false end.

Definition isSELL (s : TradeSide) : bool :=
  match s with SELL => true | _ => false end.

Record TradeClassification := mkClassification {
  side : TradeSide;
  signedVolume : Q
}.

Record VPINMetrics := mkVPINMetrics {
  vpin : Q;
  toxicity : Q;
  buyVolume : Q;
  sellVolume : Q;
  imbalance : Q
}.

Record t := mkAnalyzer {
  bucketSize_ : nat;
  vpinWindow_ : nat;
  impactWindow_ : nat;
  tradeHistory_ : list Market.MarketTick;
  classifiedTrades_ : list TradeClassification;
  volumeBuckets_ : list Q;
  currentBucketVolume_ : Q;
  currentBucketBuyVolume_ : Q;
  isCurrentBucketBuy_ : bool;
  priceChanges_ : list Q;
  signedVolumes_ : list Q;
  lastPrice_ : Q;
  lastMidPrice_ : Q;
  cumulativeVolume_ : Q;
  cumulativeBuyVolume_ : Q;
  cumulativeSellVolume_ : Q
}.

Definition create (bucketSize vpinWindow impactWindow : nat) : t :=
  mkAnalyzer bucketSize vpinWindow impactWindow
             [] [] [] 0 0 true [] [] 0 0 0 0 0.

(** The tick rule. *)
Definition inferTradeSide (a : t) (price : Q) : TradeSide :=
  if dle (lastPrice_ a) 0 then UNKNOWN
  else if dgt price (lastPrice_ a) then BUY
  else if dlt price (lastPrice_ a) then SELL
  else match last (classifiedTrades_ a) with
       | None => UNKNOWN
       | Some c => side c
       end.

Definition classifyTrade (a : t) (price volume bidPrice askPrice : Q)
  : TradeClassification :=
  if dgt bidPrice 0 && dgt askPrice 0 then
    let midPrice := (bidPrice + askPrice) / 2 in
    if dgt price midPrice then mkClassification BUY volume
    else if dlt price midPrice then mkClassification SELL (- volume)
    else
      let s := inferTradeSide a price in
      mkClassification s (if isBUY s then volume else - volume)
  else
    let s := inferTradeSide a price in
    mkClassification s (if isBUY s then volume else - volume).

Definition updateVPINBuckets (a : t) (trade : TradeClassification) : t :=
  let vol := Qabs (signedVolume trade) in
  let bucketVolume := currentBucketVolume_ a + vol in
  let bucketBuyVolume :=
    if isBUY (side trade) then currentBucketBuyVolume_ a + vol
    else currentBucketBuyVolume_ a in
  if dge bucketVolume (ofNat (bucketSize_ a)) then
    let bucketImbalance := Qabs (2 * bucketBuyVolume - bucketVolume) in
    let buckets := volumeBuckets_ a ++ [bucketImbalance] in
    mkAnalyzer (bucketSize_ a) (vpinWindow_ a) (impactWindow_ a)
               (tradeHistory_ a) (classifiedTrades_ a)
               (popIfOver (vpinWindow_ a) buckets)
               0 0 (isCurrentBucketBuy_ a)
               (priceChanges_ a) (signedVolumes_ a)
               (lastPrice_ a) (lastMidPrice_ a) (cumulativeVolume_ a)
               (cumulativeBuyVolume_ a) (cumulativeSellVolume_ a)
  else
    mkAnalyzer (bucketSize_ a) (vpinWindow_ a) (impactWindow_ a)
               (tradeHistory_ a) (classifiedTrades_ a)
               (volumeBuckets_ a)
               bucketVolume bucketBuyVolume (isCurrentBucketBuy_ a)
               (priceChanges_ a) (signedVolumes_ a)
               (lastPrice_ a) (lastMidPrice_ a) (cumulativeVolume_ a)
               (cumulativeBuyVolume_ a) (cumulativeSellVolume_ a).

Definition updatePriceImpact (a : t) (priceChange signedVol : Q) : t :=
  let changes := priceChanges_ a ++ [priceChange] in
  let vols := signedVolumes_ a ++ [signedVol] in
  let over := (impactWindow_ a <? length changes)%nat in
  mkAnalyzer (bucketSize_ a) (vpinWindow_ a) (impactWindow_ a)
             (tradeHistory_ a) (classifiedTrades_ a) (volumeBuckets_ a)
             (currentBucketVolume_ a) (currentBucketBuyVolume_ a)
             (isCurrentBucketBuy_ a)
             (if over then tail changes else changes)
             (if over then tail vols else vols)
             (lastPrice_ a) (lastMidPrice_ a) (cumulativeVolume_ a)
             (cumulativeBuyVolume_ a) (cumulativeSellVolume_ a).

(** The first half of [onTick]: histories and cumulative volumes. *)
Definition recordTrade (a : t) (tick : Market.MarketTick)
  (c : TradeClassification) : t :=
  let history := tradeHistory_ a ++ [tick] in
  let classified := classifiedTrades_ a ++ [c] in
  mkAnalyzer (bucketSize_ a) (vpinWindow_ a) (impactWindow_ a)
             (popIfOver 1000 history)
             (popIfOver 1000 classified)
             (volumeBuckets_ a)
             (currentBucketVolume_ a) (currentBucketBuyVolume_ a)
             (isCurrentBucketBuy_ a)
             (priceChanges_ a) (signedVolumes_ a)
             (lastPrice_ a) (lastMidPrice_ a)
             (cumulativeVolume_ a + Market.volume tick)
             (if isBUY (side c)
              then cumulativeBuyVolume_ a + Market.volume tick
              else cumulativeBuyVolume_ a)
             (if isSELL (side c)
              then cumulativeSellVolume_ a + Market.volume tick
              else cumulativeSellVolume_ a).

Definition setLastPrice (a : t) (price : Q) : t :=
  mkAnalyzer (bucketSize_ a) (vpinWindow_ a) (impactWindow_ a)
             (tradeHistory_ a) (classifiedTrades_ a) (volumeBuckets_ a)
             (currentBucketVolume_ a) (currentBucketBuyVolume_ a)
             (isCurrentBucketBuy_ a)
             (priceChanges_ a) (signedVolumes_ a)
             price (lastMidPrice_ a) (cumulativeVolume_ a)
             (cumulativeBuyVolume_ a) (cumulativeSellVolume_ a).

Definition onTick (a : t) (tick : Market.MarketTick) : t :=
  let classification :=
    classifyTrade a (Market.price tick) (Market.volume tick) 0 0 in
  let a1 := recordTrade a tick classification in
  let a2 := updateVPINBuckets a1 classification in
  let a3 :=
    if dgt (lastPrice_ a2) 0 then
      updatePriceImpact a2 (Market.price tick - lastPrice_ a2)
                        (signedVolume classification)
    else a2 in
  setLastPrice a3 (Market.price tick).

(** [computeVPIN].  The division by [bucketSize_] is exact here; with
    [bucketSize_ = 0] the code divides by zero, and that case is
    evaluated on [Binary64.MicrostructureAnalyzer]. *)
Definition computeVPIN (a : t) : Q :=
  if (length (volumeBuckets_ a) <? 2)%nat then 0
  else
    let sumImbalance := accumulate (volumeBuckets_ a) in
    let avgImbalance := sumImbalance / ofNat (length (volumeBuckets_ a)) in
    let v := avgImbalance / ofNat (bucketSize_ a) in
    dmin (dmax v 0) 1.

(** The loop of [getVPIN] over the last [min(size, 50)] classified
    trades carries [(recentBuy, recentSell)]. *)
Definition recentStep (st : Q * Q) (c : TradeClassification) : Q * Q :=
  if isBUY (side c) then (fst st + signedVolume c, snd st)
  else if isSELL (side c) then (fst st, snd st + Qabs (signedVolume c))
  else st.

Definition getVPIN (a : t) : VPINMetrics :=
  let v := computeVPIN a in
  let size := length (classifiedTrades_ a) in
  let window := Nat.min size 50 in
  let '(recentBuy, recentSell) :=
    fold_left recentStep (skipn (size - window) (classifiedTrades_ a))
              (0, 0) in
  let totalVol := recentBuy + recentSell in
  let imb := if dgt totalVol 0
             then Qabs (recentBuy - recentSell) / totalVol else 0 in
  mkVPINMetrics v (v * imb) recentBuy recentSell imb.

Definition reset (a : t) : t :=
  mkAnalyzer (bucketSize_ a) (vpinWindow_ a) (impactWindow_ a)
             [] [] [] 0 0 true [] [] 0 0 0 0 0.

End MicrostructureAnalyzer.

(** ** namespace microstructure: Roll's spread estimator (over [R]) *)

Module microstructure.

Local Open Scope R_scope.



End microstructure.

(** ** Doubles with the IEEE special values *)

Module Dbl.

Local Open Scope R_scope.

(** A double is a real, an infinity or a NaN.  Finite arithmetic is
    exact; the special values follow IEEE 754.  The sign of zero is not
    modelled: a division by zero takes the sign of its numerator. *)
Inductive dbl := Fin (r : R) | PInf | NInf | NaN.

Definition neg (x : dbl) : dbl :=
  match x with
  | Fin r => Fin (- r)
  | PInf => NInf
  | NInf => PInf
  | NaN => NaN
  end.

Definition add (x y : dbl) : dbl :=
  match x, y with
  | NaN, _ | _, NaN => NaN
  | Fin a, Fin b => Fin (a + b)
  | PInf, NInf | NInf, PInf => NaN
  | PInf, _ | _, PInf => PInf
  | NInf, _ | _, NInf => NInf
  end.

Definition sub (x y : dbl) : dbl := add x (neg y).

(** An infinity ([PInf] if [positive]) times the finite [r]. *)
Definition scaleInf (positive : bool) (r : R) : dbl :=
  if Rlt_dec 0 r then (if positive then PInf else NInf)
  else if Rlt_dec r 0 then (if positive then NInf else PInf)
  else NaN.

Definition mul (x y : dbl) : dbl :=
  match x, y with
  | NaN, _ | _, NaN => NaN
  | Fin a, Fin b => Fin (a * b)
  | Fin a, PInf | PInf, Fin a => scaleInf true a
  | Fin a, NInf | NInf, Fin a => scaleInf false a
  | PInf, PInf | NInf, NInf => PInf
  | PInf, NInf | NInf, PInf => NInf
  end.

Definition div (x y : dbl) : dbl :=
  match x, y with
  | NaN, _ | _, NaN => NaN
  | Fin a, Fin b =>
      if Req_dec_T b 0 then
        (if Rlt_dec 0 a then PInf else if Rlt_dec a 0 then NInf else NaN)
      else Fin (a / b)
  | Fin _, PInf | Fin _, NInf => Fin 0
  | PInf, Fin b => if Rlt_dec b 0 then NInf else PInf
  | NInf, Fin b => if Rlt_dec b 0 then PInf else NInf
  | PInf, PInf | PInf, NInf | NInf, PInf | NInf, NInf => NaN
  end.

(** [x < y]; every comparison with a NaN is false. *)
Definition lt (x y : dbl) : bool :=
  match x, y with
  | NaN, _ | _, NaN => false
  | Fin a, Fin b => if Rlt_dec a b then true else false
  | NInf, NInf => false
  | NInf, _ => true
  | _, NInf => false
  | PInf, _ => false
  | Fin _, PInf => true
  end.

Definition gt (x y : dbl) : bool := lt y x.

(** [std::log]. *)
Definition log (x : dbl) : dbl :=
  match x with
  | Fin r => if Rlt_dec 0 r then Fin (ln r)
             else if Rlt_dec r 0 then NaN else NInf
  | PInf => PInf
  | NInf | NaN => NaN
  end.

(** [std::sqrt]. *)
Definition sqrt (x : dbl) : dbl :=
  match x with
  | Fin r => if Rlt_dec r 0 then NaN else Fin (R_sqrt.sqrt r)
  | PInf => PInf
  | NInf | NaN => NaN
  end.

(** [std::max(a, b)] is [(a < b) ? b : a]; [std::min(a, b)] is
    [(b < a) ? b : a]. *)
Definition max (a b : dbl) : dbl := if lt a b then b else a.
Definition min (a b : dbl) : dbl := if lt b a then b else a.

Definition ofNat (n : nat) : dbl := Fin (INR n).

Definition accumulate (l : list dbl) : dbl := fold_left add l (Fin 0).

(** [*std::max_element] and [*std::min_element] of a non-empty range. *)
Definition maxElement (l : list dbl) : dbl :=
  match l with
  | [] => NaN
  | x :: rest =>
      fold_left (fun largest y => if lt largest y then y else largest) rest x
  end.

Definition minElement (l : list dbl) : dbl :=
  match l with
  | [] => NaN
  | x :: rest =>
      fold_left (fun smallest y => if lt y smallest then y else smallest)
                rest x
  end.

End Dbl.

(** ** alpha/regime: the Hurst exponent by rescaled range *)

Module regime.

Import Dbl.
Local Open Scope R_scope.

(** The log returns of consecutive positive prices. *)
Fixpoint logReturnsOf (prices : list dbl) : list dbl :=
  match prices with
  | prev :: (cur :: _) as rest =>
      if gt cur (Fin 0) && gt prev (Fin 0)
      then log (div cur prev) :: logReturnsOf rest
      else logReturnsOf rest
  | _ => []
  end.

(** The cumulative deviations [cumDev] of a segment from its mean. *)
Fixpoint cumulativeDeviation (segment : list dbl) (mean cumSum : dbl)
  : list dbl :=
  match segment with
  | [] => []
  | x :: rest =>
      let cumSum' := add cumSum (sub x mean) in
      cumSum' :: cumulativeDeviation rest mean cumSum'
  end.

(** Range [R] and deviation [S] of one segment of length [lag]. *)
Definition segmentRS (lag : nat) (segment : list dbl) : dbl * dbl :=
  let mean := div (accumulate segment) (ofNat lag) in
  let cumDev := cumulativeDeviation segment mean (Fin 0) in
  let range := sub (maxElement cumDev) (minElement cumDev) in
  let variance :=
    fold_left (fun v x => add v (mul (sub x mean) (sub x mean)))
              segment (Fin 0) in
  (range, sqrt (div variance (ofNat lag))).

(** The inner loop over the segments of one lag carries [avgRS]. *)
Definition sumRS (logReturns : list dbl) (lag : nat) : dbl :=
  fold_left
    (fun avgRS seg =>
       let segment := firstn lag (skipn (seg * lag) logReturns) in
       let '(range, dev) := segmentRS lag segment in
       if gt dev (Fin 1e-10) then add avgRS (div range dev) else avgRS)
    (seq 0 (length logReturns / lag)) (Fin 0).

(** The outer loop, [for (lag = 2; lag <= maxLag && lag <= size / 2;
    ++lag)], carries [(logLags, logRS)]. *)
Definition lagRange (logReturns : list dbl) (maxLag : nat) : list nat :=
  seq 2 (Nat.min maxLag (length logReturns / 2) - 1).

Definition rsPoints (logReturns : list dbl) (maxLag : nat)
  : list dbl * list dbl :=
  fold_left
    (fun (st : list dbl * list dbl) lag =>
       let numSegments := (length logReturns / lag)%nat in
       if (0 <? numSegments)%nat then
         let avgRS := div (sumRS logReturns lag) (ofNat numSegments) in
         (fst st ++ [log (ofNat lag)], snd st ++ [log avgRS])
       else st)
    (lagRange logReturns maxLag) ([], []).

(** The regression of [logRS] on [logLags], clamped. *)
Definition regressionSlope (logLags logRS : list dbl) : dbl :=
  let numLags := ofNat (length logLags) in
  let sumX := accumulate logLags in
  let sumY := accumulate logRS in
  let '(sumXY, sumX2) :=
    fold_left
      (fun (st : dbl * dbl) (xy : dbl * dbl) =>
         (add (fst st) (mul (fst xy) (snd xy)),
          add (snd st) (mul (fst xy) (fst xy))))
      (combine logLags logRS) (Fin 0, Fin 0) in
  let H := div (sub (mul numLags sumXY) (mul sumX sumY))
               (sub (mul numLags sumX2) (mul sumX sumX)) in
  min (max H (Fin 0)) (Fin 1).

(** How a call ends: with a value, or with the [std::length_error] that
    [logReturns.reserve(numPrices - 1)] throws when [numPrices] is 0 and
    the unsigned subtraction wraps. *)
Inductive outcome := Returns (d : dbl) | ThrowsLengthError.

Definition hurstExponent (prices : list dbl) (maxLag : nat) : outcome :=
  if (length prices <? maxLag * 2)%nat then Returns (Fin 0.5)
  else
    match prices with
    | [] => ThrowsLengthError
    | _ =>
        let logReturns := logReturnsOf prices in
        if (length logReturns <? maxLag)%nat then Returns (Fin 0.5)
        else
          let '(logLags, logRS) := rsPoints logReturns maxLag in
          if (length logLags <? 3)%nat then Returns (Fin 0.5)
          else Returns (regressionSlope logLags logRS)
    end.

End regime.

(** ** backtest/sharpe: drawdown and win rate *)

Module SharpeMetrics.

(** [computeMaxDrawdownPercent]: the loop carries [(peak, maxDDPct)]. *)
Definition computeMaxDrawdownPercent (equityCurve : list Q) : Q :=
  match equityCurve with
  | [] => 0
  | e0 :: _ =>
      snd (fold_left
             (fun (st : Q * Q) equity =>
                let peak := dmax (fst st) equity in
                if dgt peak 0
                then (peak, dmax (snd st) ((peak - equity) / peak))
                else (peak, snd st))
             equityCurve (e0, 0)) * 100
  end.

(** [computeDrawdownSeries]: the loop carries [(peak, drawdowns)]. *)
Definition computeDrawdownSeries (equityCurve : list Q) : list Q :=
  match equityCurve with
  | [] => []
  | e0 :: _ =>
      snd (fold_left
             (fun (st : Q * list Q) equity =>
                let peak := dmax (fst st) equity in
                let drawdown :=
                  if dgt peak 0 then (peak - equity) / peak else 0 in
                (peak, snd st ++ [drawdown]))
             equityCurve (e0, []))
  end.

(** [computeWinRate], with [std::count_if] as the length of the filtered
    list. *)
Definition computeWinRate (returns : list Q) : Q :=
  match returns with
  | [] => 0
  | _ =>
      let wins := length (List.filter (fun r => dgt r 0) returns) in
      ofNat wins / ofNat (length returns)
  end.

End SharpeMetrics.


(** ** backtest/pnl: the queries of the position tracker *)

Module PnLTrackerQueries.
Import PnLTracker.

Definition getPosition (tr : t) (sym : string) : Position :=
  match positions_ tr !! sym with
  | Some pos => pos
  | None => mkPosition sym 0 0 0 0 0 0
  end.

Definition hasPosition (tr : t) (sym : string) : bool :=
  match positions_ tr !! sym with
  | Some _ => true
  | None => false
  end.

Definition getUnrealizedPnL (tr : t) (sym : string) : Q :=
  match positions_ tr !! sym with
  | Some pos => unrealizedPnL pos
  | None => 0
  end.

Definition getRealizedPnL (tr : t) (sym : string) : Q :=
  match realizedPnL_ tr !! sym with
  | Some pnl => pnl
  | None => 0
  end.

Definition getTotalPnL (tr : t) (sym : string) : Q :=
  getRealizedPnL tr sym + getUnrealizedPnL tr sym.

Definition getTransactionHistory (tr : t) : list Transaction :=
  transactions_ tr.

End PnLTrackerQueries.


(** ** alpha/vwap: the volume-weighted average price *)

Module VWAPCalculator.

(** The members of [VWAPCalculator].  [anchorTime_] is a reading of the
    wall clock that no member function reads back; it is left out. *)
Record t := mkVWAP {
  bandMultiplier_ : Q;
  rollingWindow_ : nat;
  vwap_ : Q;
  cumulativePV_ : Q;
  cumulativeVolume_ : Q;
  cumulativePV2_ : Q;
  tickWindow_ : list Market.MarketTick;
  isAnchored_ : bool;
  recentPrices_ : list Q
}.

Definition create (bandMultiplier : Q) (rollingWindow : nat) : t :=
  mkVWAP bandMultiplier rollingWindow 0 0 0 0 [] false [].

(** The loop of [updateRollingVWAP] carries [(sumPV, sumV, sumPV2)]. *)
Definition rollingStep (st : Q * Q * Q) (tick : Market.MarketTick)
  : Q * Q * Q :=
  let '(sumPV, sumV, sumPV2) := st in
  (sumPV + Market.price tick * Market.volume tick,
   sumV + Market.volume tick,
   sumPV2 + Market.price tick * Market.price tick * Market.volume tick).

Definition updateRollingVWAP (c : t) : t :=
  match tickWindow_ c with
  | [] =>
      mkVWAP (bandMultiplier_ c) (rollingWindow_ c) 0 (cumulativePV_ c)
             (cumulativeVolume_ c) (cumulativePV2_ c) (tickWindow_ c)
             (isAnchored_ c) (recentPrices_ c)
  | _ =>
      let '(sumPV, sumV, sumPV2) :=
        fold_left rollingStep (tickWindow_ c) (0, 0, 0) in
      mkVWAP (bandMultiplier_ c) (rollingWindow_ c)
             (if dgt sumV 0 then sumPV / sumV else 0)
             sumPV sumV sumPV2 (tickWindow_ c)
             (isAnchored_ c) (recentPrices_ c)
  end.

Definition updateSessionVWAP (c : t) (tick : Market.MarketTick) : t :=
  let pv := cumulativePV_ c + Market.price tick * Market.volume tick in
  let vol := cumulativeVolume_ c + Market.volume tick in
  let pv2 := cumulativePV2_ c
             + Market.price tick * Market.price tick * Market.volume tick in
  mkVWAP (bandMultiplier_ c) (rollingWindow_ c)
         (if dgt vol 0 then pv / vol else 0)
         pv vol pv2 (tickWindow_ c) (isAnchored_ c) (recentPrices_ c).

Definition onTick (c : t) (tick : Market.MarketTick) : t :=
  let c1 :=
    if (0 <? rollingWindow_ c)%nat then
      updateRollingVWAP
        (mkVWAP (bandMultiplier_ c) (rollingWindow_ c) (vwap_ c)
                (cumulativePV_ c) (cumulativeVolume_ c) (cumulativePV2_ c)
                (popIfOver (rollingWindow_ c) (tickWindow_ c ++ [tick]))
                (isAnchored_ c) (recentPrices_ c))
    else updateSessionVWAP c tick in
  mkVWAP (bandMultiplier_ c1) (rollingWindow_ c1) (vwap_ c1)
         (cumulativePV_ c1) (cumulativeVolume_ c1) (cumulativePV2_ c1)
         (tickWindow_ c1) (isAnchored_ c1)
         (popIfOver 10 (recentPrices_ c1 ++ [Market.price tick])).

Definition reset (c : t) : t :=
  mkVWAP (bandMultiplier_ c) (rollingWindow_ c) 0 0 0 0 [] false [].

Definition anchor (c : t) : t :=
  mkVWAP (bandMultiplier_ c) (rollingWindow_ c) (vwap_ c) 0 0 0
         (tickWindow_ c) true (recentPrices_ c).

Definition getVWAP (c : t) : Q := vwap_ c.

Definition getDeviationPercent (c : t) (currentPrice : Q) : Q :=
  if dle (vwap_ c) 0 then 0
  else ((currentPrice - vwap_ c) / vwap_ c) * 100.

Inductive VWAPSignal := STRONG_ABOVE | ABOVE | NEUTRAL | BELOW | STRONG_BELOW.

Definition getSignal (c : t) (currentPrice : Q) : VWAPSignal :=
  if dle (vwap_ c) 0 then NEUTRAL
  else
    let devPct := getDeviationPercent c currentPrice in
    if dgt devPct 2 then STRONG_ABOVE
    else if dgt devPct 0.5 then ABOVE
    else if dlt devPct (-2) then STRONG_BELOW
    else if dlt devPct (-0.5) then BELOW
    else NEUTRAL.

End VWAPCalculator.

Module vwap.

(** The loop of [computeVWAP] carries [(sumPV, sumV)]. *)
Definition vwapStep (st : Q * Q) (tick : Market.MarketTick) : Q * Q :=
  (fst st + Market.price tick * Market.volume tick,
   snd st + Market.volume tick).

Definition computeVWAP (ticks : list Market.MarketTick) : Q :=
  match ticks with
  | [] => 0
  | _ =>
      let '(sumPV, sumV) := fold_left vwapStep ticks (0, 0) in
      if dgt sumV 0 then sumPV / sumV else 0
  end.

End vwap.


(** ** alpha/microstructure: order-flow imbalance *)

Module MicrostructureQueries.
Import MicrostructureAnalyzer.


End MicrostructureQueries.


(** ** alpha/indicators *)

Module indicators.



(** The loop of [computeSimpleVWAP] carries [(sumPV, sumV)]. *)
Definition simpleVWAPStep (prices volumes : list Q) (st : Q * Q) (i : nat)
  : Q * Q :=
  (fst st + nth i prices 0 * nth i volumes 0, snd st + nth i volumes 0).

Definition computeSimpleVWAP (prices volumes : list Q) : Q :=
  if negb (length prices =? length volumes)%nat
     || (length prices =? 0)%nat
  then 0
  else
    let '(sumPV, sumV) :=
      fold_left (simpleVWAPStep prices volumes) (seq 0 (length prices))
                (0, 0) in
    if dgt sumV 0 then sumPV / sumV else 0.

End indicators.


(** ** backtest/backtester: the profit or loss of a closed position *)

Module BacktesterExit.
Import Backtester.

(** The local [pnl] of [exitPosition]: the profit or loss of the position
    that the call closes, which the function prints and does not store.
    There is none when no position is open, where the function returns
    at once. *)
Definition exitPositionPnl (bt : t) (tick : Market.MarketTick) : option Q :=
  if Qeq_bool (currentPosition_ bt) 0 then None
  else
    let long := dgt (currentPosition_ bt) 0 in
    let executionPrice :=
      applySlippage bt (Market.price tick) (Qabs (currentPosition_ bt))
                    (negb long) in
    Some (if long
          then (executionPrice - avgEntryPrice_ bt) * currentPosition_ bt
          else (avgEntryPrice_ bt - executionPrice)
               * Qabs (currentPosition_ bt)).

End BacktesterExit.

(** ** The same code over IEEE binary64

    Where a property turns on the rounding of a division, or on a
    division by zero, the functions concerned are transcribed a second
    time with [double] as the binary64 numbers of the kernel, so that
    they evaluate as the compiled code does. *)

Module Binary64.
Import PrimFloat.
Local Open Scope float_scope.

(** [std::max(a, b)] returns [(a < b) ? b : a], [std::min(a, b)] returns
    [(b < a) ? b : a]; a comparison with a NaN is false. *)
Definition dmax (a b : float) : float := if a <? b then b else a.
Definition dmin (a b : float) : float := if b <? a then b else a.

(** [std::accumulate(first, last, 0.0)]. *)
Definition accumulate (l : list float) : float := fold_left add l 0.

(** The conversion of a [size_t] to [double]. *)
Definition ofNat (n : nat) : float := of_uint63 (Uint63.of_Z (Z.of_nat n)).

(** [std::sort] on doubles, as insertion sort. *)
Fixpoint insertSorted (x : float) (l : list float) : list float :=
  match l with
  | [] => [x]
  | y :: l' => if y <? x then y :: insertSorted x l' else x :: y :: l'
  end.

Definition stdSort (l : list float) : list float :=
  fold_right insertSorted [] l.

Record MarketTick := mkTick {
  symbol : string;
  price : float;
  volume : float;
  timestamp : Z
}.

(** *** alpha/orderflow: [OrderFlowImbalance] *)

Module OrderFlowImbalance.

Record OFIResult := mkOFIResult {
  imbalance : float;
  bidPressure : float;
  askPressure : float;
  aggression : float;
  momentum : float;
  timestamp : Z
}.

Record t := mkOFI {
  window_ : nat;
  buyVolumes_ : list float;
  sellVolumes_ : list float;
  buyPrices_ : list float;
  sellPrices_ : list float;
  timestamps_ : list Z
}.

Definition create (window : nat) : t := mkOFI window [] [] [] [] [].

Fixpoint maintainWindow (fuel : nat) (o : t) : t :=
  match fuel with
  | O => o
  | S fuel' =>
      if (window_ o <? length (buyVolumes_ o) + length (sellVolumes_ o))%nat
      then
        maintainWindow fuel'
          (mkOFI (window_ o)
                 (tail (buyVolumes_ o)) (tail (sellVolumes_ o))
                 (tail (buyPrices_ o)) (tail (sellPrices_ o))
                 (tail (timestamps_ o)))
      else o
  end.

Definition onTrade (o : t) (price volume : float) (isBuy : bool) (ts : Z)
  : t :=
  let o1 :=
    if isBuy then
      mkOFI (window_ o) (buyVolumes_ o ++ [volume]) (sellVolumes_ o)
            (buyPrices_ o ++ [price]) (sellPrices_ o) (timestamps_ o ++ [ts])
    else
      mkOFI (window_ o) (buyVolumes_ o) (sellVolumes_ o ++ [volume])
            (buyPrices_ o) (sellPrices_ o ++ [price]) (timestamps_ o ++ [ts])
  in
  maintainWindow (length (buyVolumes_ o1) + length (sellVolumes_ o1)) o1.

Definition computeImbalance (o : t) : float :=
  let buyVol := accumulate (buyVolumes_ o) in
  let sellVol := accumulate (sellVolumes_ o) in
  let totalVol := buyVol + sellVol in
  if totalVol <? 1e-10 then 0 else (buyVol - sellVol) / totalVol.

Definition computeAggression (o : t) : float :=
  let allVolumes := buyVolumes_ o ++ sellVolumes_ o in
  match allVolumes with
  | [] => 0
  | _ =>
      let sorted := stdSort allVolumes in
      let median := nth (length sorted / 2) sorted 0 in
      let threshold := median * 1.5 in
      let largeCount :=
        length (List.filter (fun v => threshold <? v) sorted) in
      ofNat largeCount / ofNat (length sorted)
  end.

(** The loop of [computeMomentum] carries
    [(recentBuy, recentSell, oldBuy, oldSell, buyIdx, sellIdx)]. *)
Definition momentumStep (o : t) (halfWindow : nat)
  (st : float * float * float * float * nat * nat) (i : nat)
  : float * float * float * float * nat * nat :=
  let '(recentBuy, recentSell, oldBuy, oldSell, buyIdx, sellIdx) := st in
  let isRecent := (halfWindow <=? i)%nat in
  let '(recentBuy1, oldBuy1, buyIdx1) :=
    if (buyIdx <? length (buyVolumes_ o))%nat then
      if isRecent
      then (recentBuy + nth buyIdx (buyVolumes_ o) 0, oldBuy, S buyIdx)
      else (recentBuy, oldBuy + nth buyIdx (buyVolumes_ o) 0, S buyIdx)
    else (recentBuy, oldBuy, buyIdx) in
  let '(recentSell1, oldSell1, sellIdx1) :=
    if (sellIdx <? length (sellVolumes_ o))%nat then
      if isRecent
      then (recentSell + nth sellIdx (sellVolumes_ o) 0, oldSell, S sellIdx)
      else (recentSell, oldSell + nth sellIdx (sellVolumes_ o) 0, S sellIdx)
    else (recentSell, oldSell, sellIdx) in
  (recentBuy1, recentSell1, oldBuy1, oldSell1, buyIdx1, sellIdx1).

Definition computeMomentum (o : t) : float :=
  if (length (timestamps_ o) <? 2)%nat then 0
  else
    let halfWindow := (window_ o / 2)%nat in
    let '(recentBuy, recentSell, oldBuy, oldSell, _, _) :=
      fold_left (momentumStep o halfWindow)
                (seq 0 (length (timestamps_ o)))
                (0, 0, 0, 0, 0%nat, 0%nat) in
    let recentImb :=
      if 0 <? recentBuy + recentSell
      then (recentBuy - recentSell) / (recentBuy + recentSell) else 0 in
    let oldImb :=
      if 0 <? oldBuy + oldSell
      then (oldBuy - oldSell) / (oldBuy + oldSell) else 0 in
    recentImb - oldImb.

Definition getOFI (o : t) : option OFIResult :=
  match buyVolumes_ o, sellVolumes_ o with
  | [], [] => None
  | _, _ =>
      let imb := computeImbalance o in
      let aggr := computeAggression o in
      let mom := computeMomentum o in
      let buyVol := accumulate (buyVolumes_ o) in
      let sellVol := accumulate (sellVolumes_ o) in
      let totalVol := buyVol + sellVol in
      let bid := if 0 <? totalVol then buyVol / totalVol else 0.5 in
      let ask := if 0 <? totalVol then sellVol / totalVol else 0.5 in
      let ts := match last (timestamps_ o) with
                | Some t => t
                | None => 0%Z
                end in
      Some (mkOFIResult imb bid ask aggr mom ts)
  end.

End OrderFlowImbalance.

(** *** alpha/microstructure: [MicrostructureAnalyzer] *)

Module MicrostructureAnalyzer.

Inductive TradeSide := BUY | SELL | UNKNOWN.

Definition isBUY (s : TradeSide) : bool :=
  match s with BUY => true | _ => false end.

Definition isSELL (s : TradeSide) : bool :=
  match s with SELL => true | _ => false end.

Record TradeClassification := mkClassification {
  side : TradeSide;
  signedVolume : float
}.

Record VPINMetrics := mkVPINMetrics {
  vpin : float;
  toxicity : float;
  buyVolume : float;
  sellVolume : float;
  imbalance : float
}.

Record t := mkAnalyzer {
  bucketSize_ : nat;
  vpinWindow_ : nat;
  impactWindow_ : nat;
  tradeHistory_ : list MarketTick;
  classifiedTrades_ : list TradeClassification;
  volumeBuckets_ : list float;
  currentBucketVolume_ : float;
  currentBucketBuyVolume_ : float;
  isCurrentBucketBuy_ : bool;
  priceChanges_ : list float;
  signedVolumes_ : list float;
  lastPrice_ : float;
  lastMidPrice_ : float;
  cumulativeVolume_ : float;
  cumulativeBuyVolume_ : float;
  cumulativeSellVolume_ : float
}.

Definition create (bucketSize vpinWindow impactWindow : nat) : t :=
  mkAnalyzer bucketSize vpinWindow impactWindow
             [] [] [] 0 0 true [] [] 0 0 0 0 0.

(** The tick rule. *)
Definition inferTradeSide (a : t) (price : float) : TradeSide :=
  if lastPrice_ a <=? 0 then UNKNOWN
  else if lastPrice_ a <? price then BUY
  else if price <? lastPrice_ a then SELL
  else match last (classifiedTrades_ a) with
       | None => UNKNOWN
       | Some c => side c
       end.

Definition classifyTrade (a : t) (price volume bidPrice askPrice : float)
  : TradeClassification :=
  if (0 <? bidPrice) && (0 <? askPrice) then
    let midPrice := (bidPrice + askPrice) / 2 in
    if midPrice <? price then mkClassification BUY volume
    else if price <? midPrice then mkClassification SELL (- volume)
    else
      let s := inferTradeSide a price in
      mkClassification s (if isBUY s then volume else - volume)
  else
    let s := inferTradeSide a price in
    mkClassification s (if isBUY s then volume else - volume).

Definition updateVPINBuckets (a : t) (trade : TradeClassification) : t :=
  let vol := abs (signedVolume trade) in
  let bucketVolume := currentBucketVolume_ a + vol in
  let bucketBuyVolume :=
    if isBUY (side trade) then currentBucketBuyVolume_ a + vol
    else currentBucketBuyVolume_ a in
  if ofNat (bucketSize_ a) <=? bucketVolume then
    let bucketImbalance := abs (2 * bucketBuyVolume - bucketVolume) in
    let buckets := volumeBuckets_ a ++ [bucketImbalance] in
    mkAnalyzer (bucketSize_ a) (vpinWindow_ a) (impactWindow_ a)
               (tradeHistory_ a) (classifiedTrades_ a)
               (popIfOver (vpinWindow_ a) buckets)
               0 0 (isCurrentBucketBuy_ a)
               (priceChanges_ a) (signedVolumes_ a)
               (lastPrice_ a) (lastMidPrice_ a) (cumulativeVolume_ a)
               (cumulativeBuyVolume_ a) (cumulativeSellVolume_ a)
  else
    mkAnalyzer (bucketSize_ a) (vpinWindow_ a) (impactWindow_ a)
               (tradeHistory_ a) (classifiedTrades_ a)
               (volumeBuckets_ a)
               bucketVolume bucketBuyVolume (isCurrentBucketBuy_ a)
               (priceChanges_ a) (signedVolumes_ a)
               (lastPrice_ a) (lastMidPrice_ a) (cumulativeVolume_ a)
               (cumulativeBuyVolume_ a) (cumulativeSellVolume_ a).

Definition updatePriceImpact (a : t) (priceChange signedVol : float) : t :=
  let changes := priceChanges_ a ++ [priceChange] in
  let vols := signedVolumes_ a ++ [signedVol] in
  let over := (impactWindow_ a <? length changes)%nat in
  mkAnalyzer (bucketSize_ a) (vpinWindow_ a) (impactWindow_ a)
             (tradeHistory_ a) (classifiedTrades_ a) (volumeBuckets_ a)
             (currentBucketVolume_ a) (currentBucketBuyVolume_ a)
             (isCurrentBucketBuy_ a)
             (if over then tail changes else changes)
             (if over then tail vols else vols)
             (lastPrice_ a) (lastMidPrice_ a) (cumulativeVolume_ a)
             (cumulativeBuyVolume_ a) (cumulativeSellVolume_ a).

(** The first half of [onTick]: histories and cumulative volumes. *)
Definition recordTrade (a : t) (tick : MarketTick)
  (c : TradeClassification) : t :=
  let history := tradeHistory_ a ++ [tick] in
  let classified := classifiedTrades_ a ++ [c] in
  mkAnalyzer (bucketSize_ a) (vpinWindow_ a) (impactWindow_ a)
             (popIfOver 1000 history)
             (popIfOver 1000 classified)
             (volumeBuckets_ a)
             (currentBucketVolume_ a) (currentBucketBuyVolume_ a)
             (isCurrentBucketBuy_ a)
             (priceChanges_ a) (signedVolumes_ a)
             (lastPrice_ a) (lastMidPrice_ a)
             (cumulativeVolume_ a + volume tick)
             (if isBUY (side c)
              then cumulativeBuyVolume_ a + volume tick
              else cumulativeBuyVolume_ a)
             (if isSELL (side c)
              then cumulativeSellVolume_ a + volume tick
              else cumulativeSellVolume_ a).

Definition setLastPrice (a : t) (price : float) : t :=
  mkAnalyzer (bucketSize_ a) (vpinWindow_ a) (impactWindow_ a)
             (tradeHistory_ a) (classifiedTrades_ a) (volumeBuckets_ a)
             (currentBucketVolume_ a) (currentBucketBuyVolume_ a)
             (isCurrentBucketBuy_ a)
             (priceChanges_ a) (signedVolumes_ a)
             price (lastMidPrice_ a) (cumulativeVolume_ a)
             (cumulativeBuyVolume_ a) (cumulativeSellVolume_ a).

Definition onTick (a : t) (tick : MarketTick) : t :=
  let classification := classifyTrade a (price tick) (volume tick) 0 0 in
  let a1 := recordTrade a tick classification in
  let a2 := updateVPINBuckets a1 classification in
  let a3 :=
    if 0 <? lastPrice_ a2 then
      updatePriceImpact a2 (price tick - lastPrice_ a2)
                        (signedVolume classification)
    else a2 in
  setLastPrice a3 (price tick).

(** [computeVPIN]; the last line is
    [std::min(std::max(vpin, 0.0), 1.0)]. *)
Definition computeVPIN (a : t) : float :=
  if (length (volumeBuckets_ a) <? 2)%nat then 0
  else
    let sumImbalance := accumulate (volumeBuckets_ a) in
    let avgImbalance := sumImbalance / ofNat (length (volumeBuckets_ a)) in
    let v := avgImbalance / ofNat (bucketSize_ a) in
    dmin (dmax v 0) 1.

(** The loop of [getVPIN] over the last [min(size, 50)] classified
    trades carries [(recentBuy, recentSell)]. *)
Definition recentStep (st : float * float) (c : TradeClassification)
  : float * float :=
  if isBUY (side c) then (fst st + signedVolume c, snd st)
  else if isSELL (side c) then (fst st, snd st + abs (signedVolume c))
  else st.

Definition getVPIN (a : t) : VPINMetrics :=
  let v := computeVPIN a in
  let size := length (classifiedTrades_ a) in
  let window := Nat.min size 50 in
  let '(recentBuy, recentSell) :=
    fold_left recentStep (skipn (size - window) (classifiedTrades_ a))
              (0, 0) in
  let totalVol := recentBuy + recentSell in
  let imb := if 0 <? totalVol
             then abs (recentBuy - recentSell) / totalVol else 0 in
  mkVPINMetrics v (v * imb) recentBuy recentSell imb.

End MicrostructureAnalyzer.

End Binary64.

(* ===================================================================== *)
(** * Part II: the vocabulary of the properties                           *)
(* ===================================================================== *)

(** Predicates, sums and sample inputs that the statements of Part III
    use.  Nothing here is part of the program. *)

Section CandleVocabulary.
Import CandleAggregator.

(** The property as the specification words it: the candle handed to the
    callback carries the high, low, close and volume that the current
    candle had before the triggering tick. *)
Definition emitted_excludes_trigger
  (pps : Z) (a : t) (p v : Q) (ts : time_point) : Prop :=
  forall c, snd (onTick pps a p v ts) = Some c ->
    high c == high (currentCandle a) /\
    low c == low (currentCandle a) /\
    close c == close (currentCandle a) /\
    cvolume c == cvolume (currentCandle a).

(** A one-minute aggregator that has seen one tick at price 100, volume 1. *)
Definition agg_after_first : t :=
  fst (onTick 1 (create 60 true) 100 1 0%Z).

End CandleVocabulary.

Section BacktesterVocabulary.
Import Backtester.

(** The signal generator of the closing-trade scenario: buy at price 100,
    sell at price 110, hold otherwise. *)
Definition s6_signal (g : unit) (tick : Market.MarketTick) : Z * unit :=
  (if Qeq_bool (Market.price tick) 100 then 1%Z
   else if Qeq_bool (Market.price tick) 110 then (-1)%Z
   else 0%Z, tt).

Definition s6_data : list Market.MarketTick :=
  [Market.mkTick "AAPL" 100 1 1000; Market.mkTick "AAPL" 110 1 2000].

End BacktesterVocabulary.

Section PnLVocabulary.
Import PnLTracker.

(** Every stored position has [|quantity| >= 1e-8]. *)
Definition all_above_dust (tr : t) : Prop :=
  map_Forall (fun _ pos => dust <= Qabs (quantity pos)) (positions_ tr).

(** Along a run of operations, every [addPosition] that opens a position
    for a symbol not currently held does so with [|quantity| >= 1e-8]. *)
Fixpoint opensAboveDust (tr : t) (ops : list Op) : Prop :=
  match ops with
  | [] => True
  | op :: rest =>
      match op with
      | AddPosition sym qty _ =>
          positions_ tr !! sym = None -> dust <= Qabs qty
      | _ => True
      end /\ opensAboveDust (apply tr op) rest
  end.

Definition dust_witness_ops : list Op :=
  [AddPosition "X" 10 100; UpdatePrice "X" 101;
   ClosePartialPosition "X" (-10) 105;
   AddPosition "Y" (-5) 3; AddPosition "Y" 5 4; AddPosition "X" 2 99;
   ClosePosition "X" 98].

End PnLVocabulary.

Section OrderFlowVocabulary.
Import OrderFlowImbalance.



(** The two-tick stream of the replay experiment. *)
Definition replay_ticks : list Market.MarketTick :=
  [Market.mkTick "AAPL" 100 1 1; Market.mkTick "AAPL" 99 3 2].

End OrderFlowVocabulary.

Section MicrostructureVocabulary.
Import MicrostructureAnalyzer.

(** Whether the running bucket reaches [bucketSize_] with this trade. *)
Definition bucketFull (a : t) (trade : TradeClassification) : bool :=
  dge (currentBucketVolume_ a + Qabs (signedVolume trade))
      (ofNat (bucketSize_ a)).

(** Feeding a sequence of ticks to [onTick]. *)
Definition feedTicks (a : t) (ticks : list Market.MarketTick) : t :=
  fold_left onTick ticks a.

(** The number of volume buckets completed while feeding [ticks]. *)
Fixpoint completedBuckets (a : t) (ticks : list Market.MarketTick) : nat :=
  match ticks with
  | [] => 0
  | tick :: rest =>
      let c := classifyTrade a (Market.price tick) (Market.volume tick) 0 0 in
      ((if bucketFull a c then 1 else 0)
       + completedBuckets (onTick a tick) rest)%nat
  end.



Definition vpin_witness_ticks : list Market.MarketTick :=
  [Market.mkTick "AAPL" 100 1 1; Market.mkTick "AAPL" 101 1 2;
   Market.mkTick "AAPL" 102 1 3; Market.mkTick "AAPL" 103 1 4;
   Market.mkTick "AAPL" 102 2 5].

End MicrostructureVocabulary.

Section RollVocabulary.
Import microstructure.
Local Open Scope R_scope.

(** The products of each price change with its predecessor. *)
Fixpoint lagProducts (l : list R) : list R :=
  match l with
  | x :: (y :: _) as rest => y * x :: lagProducts rest
  | _ => []
  end.

Definition sumR (l : list R) : R := fold_right Rplus 0 l.


(** For comparison, the covariance about the sample means of the two
    lagged series. *)
Definition centredLag1Covariance (l : list R) : R :=
  let n := INR (length l - 1) in
  let meanCur := sumR (tail l) / n in
  let meanPrev := sumR (removelast l) / n in
  sumR (lagProducts l) / n - meanCur * meanPrev.

Definition s3_changes : list R := [1; -1; 1; -1; 1; -1].

End RollVocabulary.

Section HurstVocabulary.
Import Dbl regime.
Local Open Scope R_scope.

(** A double that is a number of the unit interval. *)
Definition inUnitInterval (d : dbl) : Prop :=
  match d with
  | Fin r => 0 <= r <= 1
  | _ => False
  end.

(** The failing input: nine equal prices, maximum lag 4. *)
Definition flat_prices : list dbl := repeat (Fin 100) 9.

End HurstVocabulary.

Section CandleFeedVocabulary.
Import CandleAggregator.

(** Feeding a sequence of ticks to [onTick]; the candles handed to the
    callback are collected in order. *)
Fixpoint candleFeed (pps : Z) (a : t) (ticks : list (Q * Q * time_point))
  : t * list Candle :=
  match ticks with
  | [] => (a, [])
  | (p, v, ts) :: rest =>
      let '(a1, out) := onTick pps a p v ts in
      let '(a2, outs) := candleFeed pps a1 rest in
      (a2, match out with Some c => c :: outs | None => outs end)
  end.

(** The OHLC shape: the low and the high bracket the open and the close. *)
Definition wellShaped (c : Candle) : Prop :=
  low c <= open c /\ open c <= high c /\ low c <= close c /\ close c <= high c.

(** Each candle of the list starts where its predecessor ends, the first
    one at [start]. *)
Fixpoint chained (start : time_point) (l : list Candle) : Prop :=
  match l with
  | [] => True
  | c :: rest => startTime c = start /\ chained (endTime c) rest
  end.

(** The aggregator's start instant is the one of its current candle, once it has
    one. *)
Definition startsAgree (a : t) : Prop :=
  hasCandle a = true -> startTime (currentCandle a) = candleStart a.

End CandleFeedVocabulary.

Section SharpeVocabulary.

(** The largest entry of a list of non-negative numbers, 0 for none. *)
Definition largest (l : list Q) : Q := fold_left dmax l 0.

Definition nonnegative (l : list Q) : Prop := Forall (fun e => 0 <= e) l.

(** The body of the loop of [computeMaxDrawdown]. *)
Definition ddStep (st : Q * Q) (equity : Q) : Q * Q :=
  (dmax (fst st) equity, dmax (snd st) (dmax (fst st) equity - equity)).

(** The bodies of the loops of [computeMaxDrawdownPercent] and
    [computeDrawdownSeries]. *)
Definition pctStep (st : Q * Q) (equity : Q) : Q * Q :=
  let peak := dmax (fst st) equity in
  if dgt peak 0
  then (peak, dmax (snd st) ((peak - equity) / peak))
  else (peak, snd st).

Definition seriesStep (st : Q * list Q) (equity : Q) : Q * list Q :=
  let peak := dmax (fst st) equity in
  let drawdown := if dgt peak 0 then (peak - equity) / peak else 0 in
  (peak, snd st ++ [drawdown]).

End SharpeVocabulary.

Section PnLQueryVocabulary.
Import PnLTracker PnLTrackerQueries.

(** The symbol an operation names. *)
Definition opSymbol (op : Op) : string :=
  match op with
  | AddPosition sym _ _ => sym
  | ClosePosition sym _ => sym
  | ClosePartialPosition sym _ _ => sym
  | UpdatePrice sym _ => sym
  end.

Definition isPartialClose (op : Op) : bool :=
  match op with
  | ClosePartialPosition _ _ _ => true
  | _ => false
  end.

(** The cash left when the transactions of a history are paid out of
    [cash] one after the other, quantity times price each. *)
Definition settle (cash : Q) (txns : list Transaction) : Q :=
  fold_left (fun c txn => c - txQuantity txn * txPrice txn) txns cash.

(** The cash balance is what is left of the initial cash when the
    recorded transactions are paid out of it in order. *)
Definition ledgerBalanced (tr : t) : Prop :=
  cash_ tr == settle (initialCash_ tr) (getTransactionHistory tr).

End PnLQueryVocabulary.

Section BacktesterRunVocabulary.
Import Backtester.

(** A trade record that carries no position: zero quantity, zero entry
    price and zero PnL. *)
Definition flatTrade (tr : Trade) : Prop :=
  quantity tr = 0 /\ entryPrice tr = 0 /\ pnl tr == 0.

End BacktesterRunVocabulary.

Section EngineVocabulary.
Import OrderFlowEngine.

(** What a client can do to an engine. *)
Inductive EngineCall :=
| CallOnTick (tick : Market.MarketTick) (isBuy : bool)
| CallReset.

(** A sequence of calls on an engine; the results of the [onTick] calls
    are collected in order. *)
Fixpoint engineRun (e : t) (calls : list EngineCall)
  : t * list (option OrderFlowSignal) :=
  match calls with
  | [] => (e, [])
  | CallOnTick tick isBuy :: rest =>
      let '(e1, out) := onTick e tick isBuy in
      let '(e2, outs) := engineRun e1 rest in
      (e2, out :: outs)
  | CallReset :: rest => engineRun (reset e) rest
  end.


(** The volume and the side of the ticks fed since the last [reset]
    (since the construction, if there was none). *)
Definition sinceReset (calls : list EngineCall) : list (Q * bool) :=
  fold_left (fun acc c =>
               match c with
               | CallOnTick tick isBuy => acc ++ [(Market.volume tick, isBuy)]
               | CallReset => []
               end) calls [].

Definition signedVolume (t : Q * bool) : Q :=
  if snd t then fst t else - fst t.

(** The state of an engine whose members have the windows and the
    weights the constructor gives them. *)
Definition asConstructed (e : t) : Prop :=
  OrderFlowImbalance.window_ (ofi_ e) = 100%nat /\
  BidAskPressure.window_ (pressure_ e) = 50%nat /\
  TradeAggression.window_ (aggression_ e) = 30%nat /\
  FlowToxicity.ofiWeight_ (toxicity_ e) = 0.4 /\
  FlowToxicity.pressureWeight_ (toxicity_ e) = 0.3 /\
  FlowToxicity.aggressionWeight_ (toxicity_ e) = 0.3.

(** Every signal of a list of results satisfies [P]. *)
Definition everySignal (P : OrderFlowSignal -> Prop)
  (outs : list (option OrderFlowSignal)) : Prop :=
  Forall (fun o => match o with Some s => P s | None => True end) outs.

(** The engine's counters agree with a list of fed volumes and sides:
    the tick count is its length, and the cumulative delta is what adding
    the signed volumes to 0 one after the other gives. *)
Definition booked (e : t) (fed : list (Q * bool)) : Prop :=
  tickCount_ e = length fed /\
  VolumeDelta.getCumulativeDelta (volumeDelta_ e)
  = fold_left (fun delta t => delta + signedVolume t) fed 0.

(** The queues of the engine's members are within their windows. *)
Definition queuesBounded (e : t) : Prop :=
  (length (OrderFlowImbalance.buyVolumes_ (ofi_ e))
   + length (OrderFlowImbalance.sellVolumes_ (ofi_ e)) <= 100)%nat /\
  (length (BidAskPressure.bidVolumes_ (pressure_ e)) <= 50)%nat /\
  (length (BidAskPressure.askVolumes_ (pressure_ e)) <= 50)%nat /\
  (length (TradeAggression.aggressionScores_ (aggression_ e)) <= 30)%nat /\
  (length (VolumeDelta.recentDeltas_ (volumeDelta_ e)) <= 50)%nat.



End EngineVocabulary.

Section VWAPVocabulary.

(** Feeding ticks to a calculator. *)
Definition vwapFeed (c : VWAPCalculator.t) (ticks : list Market.MarketTick)
  : VWAPCalculator.t :=
  fold_left VWAPCalculator.onTick ticks c.

(** The last [n] entries of a list. *)
Definition lastN {A : Type} (n : nat) (l : list A) : list A :=
  skipn (length l - n) l.


End VWAPVocabulary.

Section MicrostructureQueryVocabulary.
Import MicrostructureAnalyzer.

(** The queues of an analyzer are within their bounds, and the queues
    that are filled together have the same length. *)
Definition memoryBounded (a : t) : Prop :=
  (length (tradeHistory_ a) <= 1000)%nat /\
  length (classifiedTrades_ a) = length (tradeHistory_ a) /\
  (length (volumeBuckets_ a) <= vpinWindow_ a)%nat /\
  length (signedVolumes_ a) = length (priceChanges_ a) /\
  (length (priceChanges_ a) <= impactWindow_ a)%nat.

End MicrostructureQueryVocabulary.

(** The sums of the specification's profit factor, added in the order
    of the series. *)
Definition sumWins (rs : list Q) : Q :=
  accumulate (List.filter (fun r => dgt r 0) rs).

Definition sumAbsLosses (rs : list Q) : Q :=
  accumulate (map Qabs (List.filter (fun r => dlt r 0) rs)).

Section ProfitFactorVocabulary.
Import Backtester BacktesterExit.

(** The default configuration with short selling switched off. *)
Definition longOnlyConfig : BacktestConfig :=
  mkConfig 10000 0.001 2 10 0.5 false false 0.5.

(** Two round trips: buy at 100 and sell at 110, then buy at 128 and
    sell at 64. *)
Definition twoTrades_signal (g : unit) (tick : Market.MarketTick) : Z * unit :=
  (if Qeq_bool (Market.price tick) 100 || Qeq_bool (Market.price tick) 128
   then 1%Z
   else if Qeq_bool (Market.price tick) 110 || Qeq_bool (Market.price tick) 64
        then (-1)%Z
        else 0%Z, tt).

Definition twoTrades_data : list Market.MarketTick :=
  [Market.mkTick "AAPL" 100 1 1000; Market.mkTick "AAPL" 110 1 2000;
   Market.mkTick "AAPL" 128 1 3000; Market.mkTick "AAPL" 64 1 4000].

(** The backtester as the loop of [run] leaves it after the first [k]
    ticks of the two round trips. *)
Definition afterTicks (k : nat) : t :=
  self unit (fold_left (step unit twoTrades_signal) (firstn k twoTrades_data)
                       (mkLoop unit (create longOnlyConfig) tt [] [] [])).

End ProfitFactorVocabulary.

Section Binary64Vocabulary.


(** Feeding a sequence of ticks to the binary64 analyzer. *)
Definition feedTicks64 (a : Binary64.MicrostructureAnalyzer.t)
  (ticks : list Binary64.MarketTick) : Binary64.MicrostructureAnalyzer.t :=
  fold_left Binary64.MicrostructureAnalyzer.onTick ticks a.

(** A valid tick: positive price, non-negative volume. *)
Definition validTick64 (tick : Binary64.MarketTick) : bool :=
  PrimFloat.ltb PrimFloat.zero (Binary64.price tick)
  && PrimFloat.leb PrimFloat.zero (Binary64.volume tick).

End Binary64Vocabulary.

(* ===================================================================== *)
(** * Part III: properties                                                *)
(* ===================================================================== *)

(** ** Comparisons *)

Lemma dgt_true (x y : Q) : dgt x y = true <-> y < x.
Proof.
  unfold dgt. destruct (Qlt_le_dec y x) as [H|H]; split; intros K;
    try reflexivity; try assumption; try discriminate.
  exfalso. apply (Qlt_not_le _ _ K H).
Qed.

Lemma dgt_false (x y : Q) : dgt x y = false <-> x <= y.
Proof.
  unfold dgt. destruct (Qlt_le_dec y x) as [H|H]; split; intros K;
    try reflexivity; try assumption; try discriminate.
  exfalso. apply (Qlt_not_le _ _ H K).
Qed.

Lemma dlt_true (x y : Q) : dlt x y = true <-> x < y.
Proof. apply dgt_true. Qed.

Lemma dlt_false (x y : Q) : dlt x y = false <-> y <= x.
Proof. apply dgt_false. Qed.



(** ** Candle aggregator *)

Section CandleProps.
Import CandleAggregator.

(** C2, refuted as stated: with a 60 s interval, after a first tick
    (100, 1) at second 0, the tick (200, 5) at second 60 closes the
    candle, and the candle handed to the callback has high 200, close 200
    and volume 6: the triggering tick is part of it. *)
Lemma candle_emitted_includes_trigger_cex :
  hasCandle agg_after_first = true /\
  (intervalSeconds agg_after_first
     <= toSeconds 1 (60 - candleStart agg_after_first))%Z /\
  ~ emitted_excludes_trigger 1 agg_after_first 200 5 60%Z.
Proof.
  split; [reflexivity|]. split; [vm_compute; discriminate|].
  intros H. destruct (H _ eq_refl) as (Hh & _).
  vm_compute in Hh. discriminate.
Qed.

(** C2, amended: when a tick arrives whose elapsed whole seconds since the
    candle start reach [intervalSeconds], the candle handed to the
    callback is the current candle updated with that very tick (high and
    low extended by its price, close equal to its price, volume increased
    by its volume, end time equal to its instant), and the replacement
    candle starts at the tick with open = high = low = close = price and
    volume 0. *)
Theorem candle_close_on_interval
  (pps : Z) (a : t) (p v : Q) (ts : time_point)
  (Hhas : hasCandle a = true)
  (Hcb : onCandleClosed a = true)
  (Helapsed : (intervalSeconds a <= toSeconds pps (ts - candleStart a))%Z) :
  let c := currentCandle a in
  let '(a', out) := onTick pps a p v ts in
  out = Some (mkCandle (open c) (dmax (high c) p) (dmin (low c) p) p
                       (cvolume c + v) (startTime c) ts) /\
  currentCandle a' = mkCandle p p p p 0 ts ts /\
  candleStart a' = ts /\
  hasCandle a' = true.
Proof.
  unfold onTick. rewrite Hhas, Hcb. cbn [negb].
  apply Z.leb_le in Helapsed. rewrite Helapsed. cbn. auto.
Qed.

Lemma candle_close_on_interval_witness :
  let '(a', out) := onTick 1 agg_after_first 200 5 60%Z in
  out = Some (mkCandle 100 (dmax 100 200) (dmin 100 200) 200 (1 + 5) 0%Z 60%Z) /\
  currentCandle a' = mkCandle 200 200 200 200 0 60%Z 60%Z /\
  candleStart a' = 60%Z /\
  hasCandle a' = true.
Proof.
  apply (candle_close_on_interval 1 agg_after_first 200 5 60%Z).
  - reflexivity.
  - reflexivity.
  - vm_compute. discriminate.
Defined.

End CandleProps.

(** ** Backtester *)

Section BacktesterProps.
Import Backtester.

(** C1, evaluated on the code: with the default configuration
    (commission 0.001, slippage 2 bps, capital 10000, maxPositionSize
    0.5), a buy signal at 100 followed by a sell signal at 110 does open
    the position at 100.02 with quantity 50, but the one Trade that [run]
    records is filled in after [exitPosition] has zeroed the position and
    the entry price: its entry price is 0, its exit price is the raw tick
    price 110, its quantity is 0 and its PnL is 0, and the win rate
    is 0. *)
Theorem backtest_s6_recorded_trade (dsqrt : Q -> Q) :
  let bt := create defaultConfig in
  let afterBuy :=
    self unit (fold_left (step unit s6_signal) (firstn 1 s6_data)
                         (mkLoop unit bt tt [] [] [])) in
  (avgEntryPrice_ afterBuy == 100.02 /\ currentPosition_ afterBuy == 50) /\
  applySlippage bt 110 50 false == 109.978 /\
  exists tr,
    trades (run dsqrt unit s6_signal bt tt s6_data) = [tr] /\
    entryPrice tr == 0 /\ exitPrice tr == 110 /\
    quantity tr == 0 /\ pnl tr == 0 /\
    winRate (run dsqrt unit s6_signal bt tt s6_data) == 0.
Proof.
  cbv zeta. split; [split; vm_compute; reflexivity|].
  split; [vm_compute; reflexivity|].
  eexists. split; [vm_compute; reflexivity|].
  repeat split; vm_compute; reflexivity.
Qed.

Lemma step_curves (G : Type) (sf : G -> Market.MarketTick -> Z * G)
  (l : Loop G) (tick : Market.MarketTick) :
  length (lequityCurve G (step G sf l tick)) = S (length (lequityCurve G l)) /\
  length (ltimestamps G (step G sf l tick)) = S (length (ltimestamps G l)).
Proof.
  unfold step. destruct (sf (gen G l) tick) as [sg g'].
  repeat match goal with
         | |- context [let '(_, _) := ?e in _] => destruct e
         end.
  cbn. rewrite !length_app. cbn. lia.
Qed.

Lemma fold_step_curves (G : Type) (sf : G -> Market.MarketTick -> Z * G)
  (data : list Market.MarketTick) (l : Loop G) :
  length (lequityCurve G (fold_left (step G sf) data l))
    = (length (lequityCurve G l) + length data)%nat /\
  length (ltimestamps G (fold_left (step G sf) data l))
    = (length (ltimestamps G l) + length data)%nat.
Proof.
  revert l. induction data as [|tick data IH]; intros l; cbn [fold_left].
  - cbn. lia.
  - destruct (IH (step G sf l tick)) as [IH1 IH2].
    destruct (step_curves G sf l tick) as [H1 H2].
    rewrite IH1, IH2, H1, H2. cbn [length]. lia.
Qed.

(** C10: whatever the data, the configuration and the signal generator,
    the [BacktestResult] that [run] returns has an empty equity curve and
    an empty timestamp vector, and its maximum drawdown is 0; the equity
    series that the loop of [run] builds, one entry per tick, is dropped
    when the function returns. *)
Theorem backtest_equity_curve_discarded
  (dsqrt : Q -> Q) (G : Type) (sf : G -> Market.MarketTick -> Z * G)
  (bt : t) (g : G) (data : list Market.MarketTick) :
  let r := run dsqrt G sf bt g data in
  equityCurve r = [] /\ timestamps r = [] /\ maxDrawdown r == 0 /\
  length (lequityCurve G (runLoop G sf bt g data)) = length data /\
  length (ltimestamps G (runLoop G sf bt g data)) = length data.
Proof.
  cbv zeta. unfold run.
  assert (Hres : forall b trs,
             equityCurve (computeResults dsqrt b trs) = [] /\
             timestamps (computeResults dsqrt b trs) = [] /\
             maxDrawdown (computeResults dsqrt b trs) == 0).
  { intros b trs. unfold computeResults.
    destruct trs as [|tr trs]; [cbn; repeat split; reflexivity|].
    destruct (tally (tr :: trs)) as [[[[? ?] ?] ?] ?].
    cbn. repeat split; reflexivity. }
  destruct (Hres (self G (runLoop G sf bt g data))
                 (ltrades G (runLoop G sf bt g data))) as (H1 & H2 & H3).
  repeat split; try assumption.
  - unfold runLoop.
    set (l0 := mkLoop G _ g [] [] []).
    destruct (fold_step_curves G sf data l0) as [Hc _].
    destruct (last data); [destruct (negb _)|]; cbn; rewrite Hc; reflexivity.
  - unfold runLoop.
    set (l0 := mkLoop G _ g [] [] []).
    destruct (fold_step_curves G sf data l0) as [_ Hc].
    destruct (last data); [destruct (negb _)|]; cbn; rewrite Hc; reflexivity.
Qed.

End BacktesterProps.

(** ** Position tracker *)

Section PnLProps.
Import PnLTracker.

(** C9, refuted as stated: [addPosition] stores a position for a symbol
    that is not yet held whatever its quantity; after opening "X" with
    quantity 1e-9 the map holds a position with [|quantity| < 1e-8]. *)
Lemma tracker_keeps_dust_cex :
  ~ all_above_dust
      (applyAll (create 10000 AVERAGE) [AddPosition "X" 1e-9 100]).
Proof.
  intros H.
  assert (Hl : positions_ (applyAll (create 10000 AVERAGE)
                             [AddPosition "X" 1e-9 100]) !! "X"
               = Some (mkPosition "X" 1e-9 100 100 0 0 (Qabs 1e-9 * 100)))
    by (vm_compute; reflexivity).
  specialize (H _ _ Hl). cbn in H. vm_compute in H. apply H. reflexivity.
Qed.

Lemma same_side_grows (a b : Q) :
  (dgt a 0 && dgt b 0) || (dlt a 0 && dlt b 0) = true ->
  Qabs a <= Qabs (a + b).
Proof.
  intros H. apply orb_true_iff in H.
  destruct H as [H|H]; apply andb_true_iff in H; destruct H as [Ha Hb].
  - apply dgt_true in Ha. apply dgt_true in Hb.
    rewrite (Qabs_pos a) by lra. rewrite (Qabs_pos (a + b)) by lra. lra.
  - apply dlt_true in Ha. apply dlt_true in Hb.
    rewrite (Qabs_neg a) by lra. rewrite (Qabs_neg (a + b)) by lra. lra.
Qed.

Lemma updatePositionCost_quantity
  (m : CostMethod) (pos : Position) (qty price : Q) :
  quantity (updatePositionCost m pos qty price) = quantity pos + qty.
Proof. destruct m; reflexivity. Qed.

Lemma addPosition_above_dust (tr : t) (sym : string) (qty price : Q) :
  all_above_dust tr ->
  (positions_ tr !! sym = None -> dust <= Qabs qty) ->
  all_above_dust (addPosition tr sym qty price).
Proof.
  unfold all_above_dust, addPosition. intros Hinv Hopen.
  destruct (positions_ tr !! sym) as [pos|] eqn:Hl.
  - pose proof (map_Forall_lookup_1 _ _ _ _ Hinv Hl) as Hpos. cbn in Hpos.
    destruct ((dgt (quantity pos) 0 && dgt qty 0)
              || (dlt (quantity pos) 0 && dlt qty 0)) eqn:Hside.
    + cbn [positions_]. apply map_Forall_insert_2; [|exact Hinv].
      rewrite updatePositionCost_quantity.
      pose proof (same_side_grows _ _ Hside). lra.
    + destruct (dlt (Qabs (quantity pos + qty)) dust) eqn:Hd; cbn [positions_].
      * apply map_Forall_delete. exact Hinv.
      * apply dlt_false in Hd.
        apply map_Forall_insert_2; [exact Hd|exact Hinv].
  - cbn [positions_]. apply map_Forall_insert_2; [|exact Hinv].
    cbn. apply Hopen. reflexivity.
Qed.

Lemma closePosition_above_dust (tr : t) (sym : string) (price : Q) :
  all_above_dust tr -> all_above_dust (closePosition tr sym price).
Proof.
  unfold all_above_dust, closePosition. intros Hinv.
  destruct (positions_ tr !! sym) as [pos|]; [|exact Hinv].
  cbn [positions_]. apply map_Forall_delete. exact Hinv.
Qed.

Lemma closePartialPosition_above_dust
  (tr : t) (sym : string) (qty price : Q) :
  all_above_dust tr -> all_above_dust (closePartialPosition tr sym qty price).
Proof.
  unfold all_above_dust, closePartialPosition. intros Hinv.
  destruct (positions_ tr !! sym) as [pos|]; [|exact Hinv].
  destruct ((dgt (quantity pos) 0 && dlt qty 0)
            || (dlt (quantity pos) 0 && dgt qty 0)); [|exact Hinv].
  cbn [positions_].
  destruct (dlt (Qabs (quantity pos + qty)) dust) eqn:Hd.
  - apply map_Forall_delete. exact Hinv.
  - apply dlt_false in Hd. apply map_Forall_insert_2; [exact Hd|exact Hinv].
Qed.

Lemma updatePrice_above_dust (tr : t) (sym : string) (price : Q) :
  all_above_dust tr -> all_above_dust (updatePrice tr sym price).
Proof.
  unfold all_above_dust, updatePrice. intros Hinv.
  destruct (positions_ tr !! sym) as [pos|] eqn:Hl; [|exact Hinv].
  cbn [positions_]. apply map_Forall_insert_2; [|exact Hinv].
  exact (map_Forall_lookup_1 _ _ _ _ Hinv Hl).
Qed.

Lemma applyAll_above_dust (ops : list Op) (tr : t) :
  all_above_dust tr -> opensAboveDust tr ops ->
  all_above_dust (applyAll tr ops).
Proof.
  revert tr. unfold applyAll.
  induction ops as [|op ops IH]; intros tr Hinv Hops; cbn [fold_left].
  - exact Hinv.
  - destruct Hops as [Hop Hrest]. apply IH; [|exact Hrest].
    destruct op; cbn [apply].
    + apply addPosition_above_dust; assumption.
    + apply closePosition_above_dust; assumption.
    + apply closePartialPosition_above_dust; assumption.
    + apply updatePrice_above_dust; assumption.
Qed.

(** C9, amended: starting from a fresh tracker, after every sequence of
    [addPosition], [closePosition], [closePartialPosition] and
    [updatePrice] in which each [addPosition] that opens a position for a
    symbol not currently held has [|quantity| >= 1e-8], every position in
    the map has [|quantity| >= 1e-8]: a position that [addPosition]
    (reducing or flipping it) or [closePartialPosition] brings below 1e-8
    is erased. *)
Theorem tracker_positions_above_dust
  (initialCash : Q) (method : CostMethod) (ops : list Op)
  (Hopen : opensAboveDust (create initialCash method) ops) :
  all_above_dust (applyAll (create initialCash method) ops).
Proof.
  apply applyAll_above_dust; [|exact Hopen].
  unfold all_above_dust, create. cbn [positions_]. apply map_Forall_empty.
Qed.

Lemma tracker_positions_above_dust_witness :
  all_above_dust (applyAll (create 10000 AVERAGE) dust_witness_ops).
Proof.
  apply (tracker_positions_above_dust 10000 AVERAGE dust_witness_ops).
  vm_compute. repeat split; intros; discriminate.
Defined.

End PnLProps.

(** ** Order flow *)

Section OrderFlowImbalanceProps.
Import OrderFlowImbalance.

(** The window loop runs to its exit: with as much fuel as there are
    queued volumes, the queues fit the window when it stops. *)
Lemma maintainWindow_settles (fuel : nat) (o : t) :
  (length (buyVolumes_ o) + length (sellVolumes_ o) <= fuel)%nat ->
  let o' := maintainWindow fuel o in
  (length (buyVolumes_ o') + length (sellVolumes_ o') <= window_ o')%nat /\
  window_ o' = window_ o.
Proof.
  revert o. induction fuel as [|fuel IH]; intros o Hfuel;
    cbn [maintainWindow]; cbv zeta.
  - split; [lia|reflexivity].
  - destruct (window_ o <? length (buyVolumes_ o) + length (sellVolumes_ o))%nat
      eqn:Hc.
    + apply Nat.ltb_lt in Hc.
      set (o1 := mkOFI _ _ _ _ _ _).
      assert (H1 : (length (buyVolumes_ o1) + length (sellVolumes_ o1)
                    <= fuel)%nat).
      { subst o1. cbn.
        destruct (buyVolumes_ o); destruct (sellVolumes_ o); cbn in *; lia. }
      destruct (IH o1 H1) as [Ha Hb]. split; [exact Ha|].
      rewrite Hb. reflexivity.
    + apply Nat.ltb_ge in Hc. split; [exact Hc|reflexivity].
Qed.

Lemma onTrade_fits_window (o : t) (p v : Q) (isBuy : bool) (ts : Z) :
  let o' := onTrade o p v isBuy ts in
  (length (buyVolumes_ o') + length (sellVolumes_ o') <= window_ o')%nat /\
  window_ o' = window_ o.
Proof.
  unfold onTrade. cbv zeta.
  match goal with
  | |- context [maintainWindow ?f ?x] =>
      destruct (maintainWindow_settles f x (Nat.le_refl _)) as [Ha Hb]
  end.
  cbv zeta in Ha, Hb. split; [exact Ha|].
  rewrite Hb. destruct isBuy; reflexivity.
Qed.


End OrderFlowImbalanceProps.

Section OrderFlowEngineProps.
Import OrderFlowEngine ProductionAlphaSystem.

(** C3, evaluated on the code: [OrderFlowEngine::reset] clears the volume
    delta, the average volume and the tick count, and leaves the queues of
    the imbalance, pressure and aggression members as they are.  Feeding
    two ticks to a fresh engine, resetting it and feeding the same two
    ticks again gives a different signal stream: the first signal of the
    first pass has OFI 1 and direction BUY_DOMINANT, the first signal of
    the second pass has OFI -1/5 and direction NEUTRAL. *)
Theorem orderflow_replay_after_reset_differs :
  let first := orderFlowLane create 0 replay_ticks in
  let second := orderFlowLane (reset (fst first)) 0 replay_ticks in
  (exists s1 s2 rest1 rest2,
     snd first = Some s1 :: rest1 /\ snd second = Some s2 :: rest2 /\
     ofi s1 == 1 /\ ofi s2 == - (1 # 5) /\
     flowDirection s1 = "BUY_DOMINANT" /\ flowDirection s2 = "NEUTRAL") /\
  snd first <> snd second /\
  OrderFlowImbalance.buyVolumes_ (ofi_ (reset (fst first))) = [1] /\
  OrderFlowImbalance.sellVolumes_ (ofi_ (reset (fst first))) = [3].
Proof.
  cbv zeta. split; [|split; [|split]].
  - do 4 eexists. split; [vm_compute; reflexivity|].
    split; [vm_compute; reflexivity|].
    repeat split; vm_compute; reflexivity.
  - vm_compute. discriminate.
  - vm_compute. reflexivity.
  - vm_compute. reflexivity.
Qed.

End OrderFlowEngineProps.

(** ** Microstructure analyzer *)

Section MicrostructureProps.
Import MicrostructureAnalyzer.















End MicrostructureProps.

Section MicrostructureWitness.
Import MicrostructureAnalyzer.


(** The run of the witness completes three buckets and has VPIN 2/3. *)
Example vpin_witness_value :
  completedBuckets (create 2 10 100) vpin_witness_ticks = 3%nat /\
  vpin (getVPIN (feedTicks (create 2 10 100) vpin_witness_ticks)) == 2 # 3.
Proof. split; vm_compute; reflexivity. Qed.

Lemma onTick_config (a : t) (tick : Market.MarketTick) :
  bucketSize_ (onTick a tick) = bucketSize_ a /\
  vpinWindow_ (onTick a tick) = vpinWindow_ a /\
  impactWindow_ (onTick a tick) = impactWindow_ a.
Proof.
  unfold onTick, setLastPrice. cbv zeta.
  match goal with |- context [if dgt ?x 0 then _ else _] => destruct (dgt x 0) end;
    unfold updatePriceImpact, updateVPINBuckets; cbv zeta;
    match goal with |- context [if dge ?x ?y then _ else _] => destruct (dge x y) end;
    repeat split; reflexivity.
Qed.

(** [MicrostructureAnalyzer::reset] does bring the analyzer back to the
    state its constructor builds, whatever it has processed. *)
Lemma microstructure_reset_is_fresh
  (bucketSize vpinWindow impactWindow : nat)
  (ticks : list Market.MarketTick) :
  reset (feedTicks (create bucketSize vpinWindow impactWindow) ticks)
  = create bucketSize vpinWindow impactWindow.
Proof.
  assert (H : forall a,
             bucketSize_ (feedTicks a ticks) = bucketSize_ a /\
             vpinWindow_ (feedTicks a ticks) = vpinWindow_ a /\
             impactWindow_ (feedTicks a ticks) = impactWindow_ a).
  { unfold feedTicks. induction ticks as [|tick ticks IH]; intros a;
      cbn [fold_left]; [repeat split; reflexivity|].
    destruct (IH (onTick a tick)) as (H1 & H2 & H3).
    destruct (onTick_config a tick) as (K1 & K2 & K3).
    rewrite H1, H2, H3, K1, K2, K3. repeat split; reflexivity. }
  destruct (H (create bucketSize vpinWindow impactWindow)) as (H1 & H2 & H3).
  unfold reset. rewrite H1, H2, H3. reflexivity.
Qed.

End MicrostructureWitness.

(** ** Roll spread *)

Section RollSpreadProps.
Import microstructure.
Local Open Scope R_scope.





(** On the series of S3 the covariance about the means is -24/25, not the
    -1 of the scenario: the specification's covariance is the mean of the
    lagged products. *)
Example s3_centred_covariance : centredLag1Covariance s3_changes = - (24 / 25).
Proof. unfold centredLag1Covariance, s3_changes. cbn. field. Qed.



End RollSpreadProps.

(** ** Hurst exponent *)

Section HurstProps.
Import Dbl regime.
Local Open Scope R_scope.

Lemma ln_pos (x : R) : 1 < x -> 0 < ln x.
Proof. intros H. rewrite <- ln_1. apply ln_increasing; lra. Qed.

Lemma scaleInf_pos (b : bool) (r : R) :
  0 < r -> scaleInf b r = if b then PInf else NInf.
Proof. intros H. unfold scaleInf. destruct (Rlt_dec 0 r); [reflexivity|contradiction]. Qed.

Lemma div_zero_by_pos (r : R) : 0 < r -> div (Fin 0) (Fin r) = Fin 0.
Proof.
  intros H. unfold div. destruct (Req_dec_T r 0) as [E|_]; [lra|].
  f_equal. field. lra.
Qed.

Lemma log_pos (r : R) : 0 < r -> log (Fin r) = Fin (ln r).
Proof. intros H. unfold log. destruct (Rlt_dec 0 r); [reflexivity|contradiction]. Qed.

(** The logarithm of zero is minus infinity. *)
Lemma log_zero : log (Fin 0) = NInf.
Proof.
  unfold log. destruct (Rlt_dec 0 0) as [H|_]; [lra|].
  destruct (Rlt_dec 0 0) as [H|_]; [lra|reflexivity].
Qed.

Lemma INR_pos (n : nat) : (0 < n)%nat -> 0 < INR n.
Proof. intros H. apply lt_0_INR. exact H. Qed.

Lemma logReturnsOf_cons (prev cur : dbl) (rest : list dbl) :
  logReturnsOf (prev :: cur :: rest)
  = if gt cur (Fin 0) && gt prev (Fin 0)
    then log (div cur prev) :: logReturnsOf (cur :: rest)
    else logReturnsOf (cur :: rest).
Proof. reflexivity. Qed.

(** A flat price series has log returns that are all zero. *)
Lemma logReturns_flat (p : R) (n : nat) :
  0 < p -> logReturnsOf (repeat (Fin p) (S n)) = repeat (Fin 0) n.
Proof.
  intros Hp. induction n as [|n IH]; [reflexivity|].
  change (repeat (Fin p) (S (S n)))
    with (Fin p :: Fin p :: repeat (Fin p) n).
  rewrite logReturnsOf_cons.
  change (Fin p :: repeat (Fin p) n) with (repeat (Fin p) (S n)).
  rewrite IH.
  assert (Hgt : gt (Fin p) (Fin 0) = true).
  { unfold gt, lt. destruct (Rlt_dec 0 p); [reflexivity|contradiction]. }
  rewrite Hgt. cbn [andb].
  assert (Hlog : log (div (Fin p) (Fin p)) = Fin 0).
  { unfold div. destruct (Req_dec_T p 0) as [E|_]; [lra|].
    replace (p / p) with 1 by (field; lra).
    rewrite log_pos by lra. rewrite ln_1. reflexivity. }
  rewrite Hlog. reflexivity.
Qed.

Lemma accumulate_zeros (k : nat) : accumulate (repeat (Fin 0) k) = Fin 0.
Proof.
  unfold accumulate. induction k as [|k IH]; [reflexivity|].
  cbn [repeat fold_left add]. rewrite Rplus_0_l. exact IH.
Qed.

Lemma cumulativeDeviation_zeros (k : nat) :
  cumulativeDeviation (repeat (Fin 0) k) (Fin 0) (Fin 0) = repeat (Fin 0) k.
Proof.
  induction k as [|k IH]; [reflexivity|].
  cbn [repeat cumulativeDeviation sub neg add].
  replace (0 + - 0) with 0 by ring. rewrite Rplus_0_l, IH. reflexivity.
Qed.

Lemma lt_zero_zero : lt (Fin 0) (Fin 0) = false.
Proof. unfold lt. destruct (Rlt_dec 0 0) as [H|_]; [lra|reflexivity]. Qed.

Lemma maxElement_zeros (k : nat) : maxElement (repeat (Fin 0) (S k)) = Fin 0.
Proof.
  cbn [repeat maxElement]. induction k as [|k IH]; [reflexivity|].
  cbn [repeat fold_left]. rewrite lt_zero_zero. exact IH.
Qed.

Lemma minElement_zeros (k : nat) : minElement (repeat (Fin 0) (S k)) = Fin 0.
Proof.
  cbn [repeat minElement]. induction k as [|k IH]; [reflexivity|].
  cbn [repeat fold_left]. rewrite lt_zero_zero. exact IH.
Qed.

Lemma variance_zeros (k : nat) :
  fold_left (fun v x => add v (mul (sub x (Fin 0)) (sub x (Fin 0))))
            (repeat (Fin 0) k) (Fin 0) = Fin 0.
Proof.
  induction k as [|k IH]; [reflexivity|].
  cbn [repeat fold_left sub neg add mul].
  replace (0 + (0 + - 0) * (0 + - 0)) with 0 by ring. exact IH.
Qed.

(** On a segment of zero returns both the range and the deviation are
    zero. *)
Lemma segmentRS_zeros (k : nat) :
  segmentRS (S k) (repeat (Fin 0) (S k)) = (Fin 0, Fin 0).
Proof.
  unfold segmentRS. cbv zeta. rewrite accumulate_zeros.
  unfold ofNat. rewrite div_zero_by_pos by (apply INR_pos; lia).
  rewrite cumulativeDeviation_zeros, maxElement_zeros, minElement_zeros.
  rewrite variance_zeros.
  rewrite div_zero_by_pos by (apply INR_pos; lia).
  f_equal.
  - cbn [sub neg add]. f_equal. ring.
  - unfold sqrt. destruct (Rlt_dec 0 0) as [H|_]; [lra|].
    rewrite sqrt_0. reflexivity.
Qed.

Lemma skipn_of_repeat {A : Type} (x : A) (k n : nat) :
  skipn k (repeat x n) = repeat x (n - k).
Proof.
  revert n. induction k as [|k IH]; intros n.
  - rewrite Nat.sub_0_r. reflexivity.
  - destruct n as [|n]; [reflexivity|]. cbn [repeat skipn Nat.sub]. apply IH.
Qed.

Lemma firstn_of_repeat {A : Type} (x : A) (k n : nat) :
  (k <= n)%nat -> firstn k (repeat x n) = repeat x k.
Proof.
  revert n. induction k as [|k IH]; intros n H; [reflexivity|].
  destruct n as [|n]; [lia|]. cbn [repeat firstn]. f_equal. apply IH. lia.
Qed.

Lemma segment_of_zeros (n lag seg : nat) :
  (seg * lag + lag <= n)%nat ->
  firstn lag (skipn (seg * lag) (repeat (Fin 0) n)) = repeat (Fin 0) lag.
Proof.
  intros H. rewrite skipn_of_repeat. apply firstn_of_repeat. lia.
Qed.

Lemma fold_left_fixed {A B : Type} (f : A -> B -> A) (l : list B) (a : A) :
  (forall x, In x l -> f a x = a) -> fold_left f l a = a.
Proof.
  induction l as [|x l IH]; intros H; [reflexivity|].
  cbn [fold_left]. rewrite (H x) by (left; reflexivity).
  apply IH. intros y Hy. apply H. right. exact Hy.
Qed.

(** With zero returns no segment contributes: the deviation never
    exceeds 1e-10, and the sum of the rescaled ranges stays 0. *)
Lemma sumRS_zeros (n k : nat) : sumRS (repeat (Fin 0) n) (S k) = Fin 0.
Proof.
  unfold sumRS. rewrite repeat_length. apply fold_left_fixed.
  intros seg Hin. apply in_seq in Hin. cbv zeta.
  assert (Hseg : (seg * S k + S k <= n)%nat).
  { assert (Hs : (S seg <= n / S k)%nat) by lia.
    pose proof (Nat.Div0.mul_div_le n (S k)) as Hd.
    assert ((S k) * S seg <= (S k) * (n / S k))%nat
      by (apply Nat.mul_le_mono_l; exact Hs).
    lia. }
  rewrite segment_of_zeros by exact Hseg.
  rewrite segmentRS_zeros.
  assert (Hgt : gt (Fin 0) (Fin 1e-10) = false).
  { unfold gt, lt. destruct (Rlt_dec 1e-10 0) as [H|_]; [lra|reflexivity]. }
  rewrite Hgt. reflexivity.
Qed.

Lemma rsPoints_flat :
  rsPoints (repeat (Fin 0) 8) 4
  = ([Fin (ln (INR 2)); Fin (ln (INR 3)); Fin (ln (INR 4))],
     [NInf; NInf; NInf]).
Proof.
  unfold rsPoints, lagRange. rewrite repeat_length.
  change (seq 2 (Nat.min 4 (8 / 2) - 1)) with [2%nat; 3%nat; 4%nat].
  cbn [fold_left].
  change (8 / 2)%nat with 4%nat. change (8 / 3)%nat with 2%nat.
  change (8 / 4)%nat with 2%nat. cbn [Nat.ltb Nat.leb fst snd app].
  rewrite !sumRS_zeros. unfold ofNat.
  rewrite !div_zero_by_pos by (apply INR_pos; lia).
  rewrite log_zero.
  rewrite !log_pos by (apply INR_pos; lia).
  reflexivity.
Qed.

(** C8, evaluated on the code: on nine equal prices with [maxLag = 4]
    every log return is 0, every segment has deviation 0, so each
    averaged R/S is 0 and its logarithm is minus infinity; the regression
    then subtracts two infinities, and the clamp [min(max(H, 0), 1)]
    lets the NaN through (both comparisons are false).  The result is
    NaN, not a number of [0,1]. *)
Theorem hurst_flat_prices_is_nan :
  hurstExponent flat_prices 4 = Returns NaN /\
  ~ inUnitInterval NaN /\
  (length (fst (rsPoints (logReturnsOf flat_prices) 4)) = 3)%nat.
Proof.
  assert (Hret : logReturnsOf flat_prices = repeat (Fin 0) 8)
    by (apply logReturns_flat; lra).
  split; [|split].
  - unfold hurstExponent. rewrite Hret.
    change (length flat_prices <? 4 * 2)%nat with false. cbv iota.
    change flat_prices with (Fin 100 :: repeat (Fin 100) 8).
    cbv iota. rewrite repeat_length.
    change (8 <? 4)%nat with false. cbv iota. rewrite rsPoints_flat.
    cbn [length Nat.ltb Nat.leb]. f_equal.
    unfold regressionSlope, accumulate, ofNat.
    cbn [length combine fold_left fst snd add mul].
    rewrite !scaleInf_pos by (apply ln_pos; cbn; lra).
    cbn [add].
    assert (H3 : 0 < INR 3) by (apply INR_pos; lia).
    assert (Hsum : 0 < 0 + ln (INR 2) + ln (INR 3) + ln (INR 4)).
    { assert (0 < ln (INR 2)) by (apply ln_pos; cbn; lra).
      assert (0 < ln (INR 3)) by (apply ln_pos; cbn; lra).
      assert (0 < ln (INR 4)) by (apply ln_pos; cbn; lra).
      lra. }
    rewrite (scaleInf_pos false _ H3), (scaleInf_pos false _ Hsum).
    reflexivity.
  - cbn. tauto.
  - rewrite Hret, rsPoints_flat. reflexivity.
Qed.

End HurstProps.

Section HurstFallbacks.
Import Dbl regime.
Local Open Scope R_scope.

(** What does hold of [hurstExponent]: with fewer than three recorded
    (log lag, log R/S) points a call that returns, returns 0.5. *)
Lemma hurst_few_points (prices : list dbl) (maxLag : nat) :
  prices <> [] ->
  (length (fst (rsPoints (logReturnsOf prices) maxLag)) < 3)%nat ->
  hurstExponent prices maxLag = Returns (Fin 0.5).
Proof.
  intros Hne Hlen. unfold hurstExponent.
  destruct (length prices <? maxLag * 2)%nat; [reflexivity|].
  destruct prices as [|p0 prices]; [congruence|].
  destruct (length (logReturnsOf (p0 :: prices)) <? maxLag)%nat;
    [reflexivity|].
  destruct (rsPoints (logReturnsOf (p0 :: prices)) maxLag) as [logLags logRS].
  cbn [fst] in Hlen. apply Nat.ltb_lt in Hlen. rewrite Hlen. reflexivity.
Qed.

(** The clamp does its work on every slope that is a number. *)
Lemma clamp_of_number (r : R) :
  inUnitInterval (min (max (Fin r) (Fin 0)) (Fin 1)).
Proof.
  unfold min, max, lt.
  destruct (Rlt_dec r 0); cbn.
  - destruct (Rlt_dec 1 0); cbn; lra.
  - destruct (Rlt_dec 1 r); cbn; lra.
Qed.

(** An empty price vector with [maxLag = 0] passes the size guard and
    reaches the wrapping [reserve]. *)
Example hurst_empty_prices : hurstExponent [] 0 = ThrowsLengthError.
Proof. reflexivity. Qed.

End HurstFallbacks.

(** ** Candle aggregator: shape and contiguity of the candles *)

Lemma dmin_le_l (a b : Q) : dmin a b <= a.
Proof. unfold dmin. destruct (Qlt_le_dec b a); lra. Qed.

Lemma dmin_le_r (a b : Q) : dmin a b <= b.
Proof. unfold dmin. destruct (Qlt_le_dec b a); lra. Qed.

Lemma dmax_ge_l (a b : Q) : a <= dmax a b.
Proof. unfold dmax. destruct (Qlt_le_dec a b); lra. Qed.

Lemma dmax_ge_r (a b : Q) : b <= dmax a b.
Proof. unfold dmax. destruct (Qlt_le_dec a b); lra. Qed.

Section CandleFeedProps.
Import CandleAggregator.

Lemma onTick_shape (pps : Z) (a : t) (p v : Q) (ts : time_point) :
  (hasCandle a = true -> wellShaped (currentCandle a)) ->
  wellShaped (currentCandle (fst (onTick pps a p v ts))) /\
  hasCandle (fst (onTick pps a p v ts)) = true /\
  (forall c, snd (onTick pps a p v ts) = Some c -> wellShaped c).
Proof.
  intros Hinv. unfold onTick. destruct (hasCandle a) eqn:Hhas; cbn [negb].
  - destruct (Hinv eq_refl) as (H1 & H2 & H3 & H4).
    pose proof (dmin_le_l (low (currentCandle a)) p).
    pose proof (dmin_le_r (low (currentCandle a)) p).
    pose proof (dmax_ge_l (high (currentCandle a)) p).
    pose proof (dmax_ge_r (high (currentCandle a)) p).
    destruct (intervalSeconds a <=? _)%Z; cbn [fst snd currentCandle hasCandle].
    + split; [unfold wellShaped; cbn; repeat split; lra|].
      split; [reflexivity|].
      intros c Hc. destruct (onCandleClosed a); [|discriminate].
      inversion Hc; subst c. unfold wellShaped; cbn. repeat split; lra.
    + split; [unfold wellShaped; cbn; repeat split; lra|].
      split; [reflexivity|]. intros c Hc. discriminate.
  - cbn [fst snd currentCandle hasCandle].
    split; [unfold wellShaped; cbn; repeat split; lra|].
    split; [reflexivity|]. intros c Hc. discriminate.
Qed.

Lemma candleFeed_shape (pps : Z) (ticks : list (Q * Q * time_point)) (a : t) :
  (hasCandle a = true -> wellShaped (currentCandle a)) ->
  Forall wellShaped (snd (candleFeed pps a ticks)) /\
  (hasCandle (fst (candleFeed pps a ticks)) = true ->
   wellShaped (currentCandle (fst (candleFeed pps a ticks)))).
Proof.
  revert a. induction ticks as [|[[p v] ts] ticks IH]; intros a Hinv.
  - cbn. split; [constructor|exact Hinv].
  - cbn [candleFeed].
    destruct (onTick_shape pps a p v ts Hinv) as (Hs & Hh & He).
    destruct (onTick pps a p v ts) as [a1 out]. cbn [fst snd] in Hs, Hh, He.
    destruct (IH a1 (fun _ => Hs)) as [IH1 IH2].
    destruct (candleFeed pps a1 ticks) as [a2 outs]. cbn [fst snd] in *.
    split; [|exact IH2].
    destruct out as [c|]; [constructor; [apply He; reflexivity|exact IH1]|exact IH1].
Qed.

(** X1: whatever ticks a fresh aggregator is fed, every candle it hands
    to the callback, and the candle it is building, has its open and its
    close between its low and its high. *)
Theorem candles_well_shaped
  (pps interval : Z) (cb : bool) (ticks : list (Q * Q * time_point)) :
  let r := candleFeed pps (create interval cb) ticks in
  Forall wellShaped (snd r) /\
  (hasCandle (fst r) = true -> wellShaped (currentCandle (fst r))).
Proof.
  cbv zeta. apply candleFeed_shape. cbn. discriminate.
Qed.

Lemma onTick_chain (pps : Z) (a : t) (p v : Q) (ts : time_point) :
  startsAgree a -> onCandleClosed a = true ->
  let a1 := fst (onTick pps a p v ts) in
  startsAgree a1 /\ hasCandle a1 = true /\ onCandleClosed a1 = true /\
  intervalSeconds a1 = intervalSeconds a /\
  match snd (onTick pps a p v ts) with
  | Some c =>
      hasCandle a = true /\ startTime c = candleStart a /\
      endTime c = candleStart a1 /\
      (intervalSeconds a <= toSeconds pps (endTime c - startTime c))%Z
  | None => hasCandle a = true -> candleStart a1 = candleStart a
  end.
Proof.
  intros Hinv Hcb. unfold onTick, startsAgree in *. cbv zeta.
  destruct (hasCandle a) eqn:Hhas; cbn [negb].
  - specialize (Hinv eq_refl).
    destruct (intervalSeconds a <=? _)%Z eqn:Hle;
      cbn [fst snd hasCandle currentCandle candleStart startTime endTime
           intervalSeconds onCandleClosed].
    + rewrite Hcb. cbn [startTime endTime].
      split; [reflexivity|]. split; [reflexivity|]. split; [reflexivity|].
      split; [reflexivity|]. split; [reflexivity|]. split; [exact Hinv|].
      split; [reflexivity|].
      apply Z.leb_le in Hle. rewrite Hinv. exact Hle.
    + split; [intros _; exact Hinv|]. split; [reflexivity|].
      split; [exact Hcb|]. split; [reflexivity|]. reflexivity.
  - cbn [fst snd hasCandle currentCandle candleStart startTime endTime
         intervalSeconds onCandleClosed].
    split; [reflexivity|]. split; [reflexivity|]. split; [exact Hcb|].
    split; [reflexivity|]. discriminate.
Qed.

Lemma candleFeed_chain (pps : Z) (ticks : list (Q * Q * time_point)) (a : t) :
  startsAgree a -> onCandleClosed a = true -> hasCandle a = true ->
  chained (candleStart a) (snd (candleFeed pps a ticks)) /\
  Forall (fun c => (intervalSeconds a
                    <= toSeconds pps (endTime c - startTime c))%Z)
         (snd (candleFeed pps a ticks)).
Proof.
  revert a. induction ticks as [|[[p v] ts] ticks IH]; intros a Hinv Hcb Hhas.
  - cbn. split; [exact I|constructor].
  - cbn [candleFeed].
    pose proof (onTick_chain pps a p v ts Hinv Hcb) as H. cbv zeta in H.
    destruct (onTick pps a p v ts) as [a1 out]. cbn [fst snd] in H.
    destruct H as (Hinv1 & Hhas1 & Hcb1 & Hint & Hout).
    destruct (IH a1 Hinv1 Hcb1 Hhas1) as [IH1 IH2]. rewrite Hint in IH2.
    destruct (candleFeed pps a1 ticks) as [a2 outs]. cbn [fst snd] in *.
    destruct out as [c|].
    + destruct Hout as (_ & Hs & He & Hspan). split.
      * cbn [chained]. split; [exact Hs|]. rewrite He. exact IH1.
      * constructor; assumption.
    + rewrite <- (Hout Hhas). split; assumption.
Qed.

Lemma candleFeed_no_callback
  (pps : Z) (ticks : list (Q * Q * time_point)) (a : t) :
  onCandleClosed a = false -> snd (candleFeed pps a ticks) = [].
Proof.
  revert a. induction ticks as [|[[p v] ts] ticks IH]; intros a Hcb.
  - reflexivity.
  - cbn [candleFeed].
    assert (H : onCandleClosed (fst (onTick pps a p v ts)) = false
                /\ snd (onTick pps a p v ts) = None).
    { unfold onTick. destruct (hasCandle a); cbn [negb].
      - destruct (intervalSeconds a <=? _)%Z; cbn [fst snd onCandleClosed];
          rewrite Hcb; split; reflexivity.
      - cbn [fst snd onCandleClosed]. split; [exact Hcb|reflexivity]. }
    destruct (onTick pps a p v ts) as [a1 out]. cbn [fst snd] in H.
    destruct H as [Hcb1 Hout]. subst out.
    specialize (IH a1 Hcb1).
    destruct (candleFeed pps a1 ticks) as [a2 outs]. exact IH.
Qed.

Lemma chained_consecutive (l : list Candle) (start : time_point) :
  chained start l ->
  forall i c1 c2, nth_error l i = Some c1 -> nth_error l (S i) = Some c2 ->
                  endTime c1 = startTime c2.
Proof.
  revert start. induction l as [|c l IH]; intros start Hch i c1 c2 H1 H2.
  - destruct i; discriminate.
  - destruct Hch as [_ Hrest]. destruct i as [|i].
    + cbn in H1, H2. inversion H1; subst c1.
      destruct l as [|c' l']; [discriminate|].
      cbn in H2. inversion H2; subst c2.
      destruct Hrest as [Hs _]. symmetry. exact Hs.
    + cbn in H1. apply (IH _ Hrest i c1 c2 H1). exact H2.
Qed.

(** X3: the candles handed to the callback tile the time line: each one
    spans at least [intervalSeconds] whole seconds, and each one ends at
    the very instant at which the next one starts (the triggering
    tick). *)
Theorem candles_contiguous
  (pps interval : Z) (cb : bool) (ticks : list (Q * Q * time_point)) :
  let out := snd (candleFeed pps (create interval cb) ticks) in
  Forall (fun c => (interval <= toSeconds pps (endTime c - startTime c))%Z)
         out /\
  forall i c1 c2, nth_error out i = Some c1 -> nth_error out (S i) = Some c2 ->
                  endTime c1 = startTime c2.
Proof.
  cbv zeta. destruct cb.
  2:{ rewrite candleFeed_no_callback by reflexivity.
      split; [constructor|]. intros i c1 c2 H. destruct i; discriminate. }
  destruct ticks as [|[[p v] ts] ticks].
  - cbn. split; [constructor|]. intros i c1 c2 H. destruct i; discriminate.
  - cbn [candleFeed].
    assert (H0 : startsAgree (create interval true))
      by (unfold startsAgree; cbn; discriminate).
    pose proof (onTick_chain pps (create interval true) p v ts H0 eq_refl) as H.
    cbv zeta in H.
    destruct (onTick pps (create interval true) p v ts) as [a1 out] eqn:Hon.
    cbn [fst snd] in H. destruct H as (Hinv1 & Hhas1 & Hcb1 & Hint & Hout).
    destruct out as [c|]; [destruct Hout as [Hf _]; discriminate|].
    destruct (candleFeed_chain pps ticks a1 Hinv1 Hcb1 Hhas1) as [Hch Hsp].
    rewrite Hint in Hsp. cbn [intervalSeconds create] in Hsp.
    destruct (candleFeed pps a1 ticks) as [a2 outs]. cbn [fst snd] in *.
    split; [exact Hsp|]. exact (chained_consecutive outs _ Hch).
Qed.

End CandleFeedProps.

(** ** backtest/sharpe: drawdown and win rate *)

Lemma dmax_cases (a b : Q) : dmax a b = a \/ dmax a b = b.
Proof. unfold dmax. destruct (Qlt_le_dec a b); auto. Qed.

Section SharpeProps.
Import Sharpe SharpeMetrics.

Lemma dd_loop_upper (l : list Q) (pk m : Q) :
  let r := snd (fold_left ddStep l (pk, m)) in
  m <= r /\
  (forall j, (j < length l)%nat -> pk - nth j l 0 <= r) /\
  (forall i j, (i <= j < length l)%nat -> nth i l 0 - nth j l 0 <= r).
Proof.
  revert pk m. induction l as [|x l IH]; intros pk m; cbv zeta.
  - cbn. split; [lra|]. split; intros; lia.
  - cbn [fold_left].
    change (ddStep (pk, m) x) with (dmax pk x, dmax m (dmax pk x - x)).
    specialize (IH (dmax pk x) (dmax m (dmax pk x - x))). cbv zeta in IH.
    destruct IH as (Hm & Hp & Hij).
    set (r := snd (fold_left ddStep l (dmax pk x, dmax m (dmax pk x - x)))) in *.
    pose proof (dmax_ge_l pk x). pose proof (dmax_ge_r pk x).
    pose proof (dmax_ge_l m (dmax pk x - x)).
    pose proof (dmax_ge_r m (dmax pk x - x)).
    split; [lra|]. split.
    + intros [|j] Hj; cbn [nth]; [lra|].
      assert (Hj' : (j < length l)%nat) by (cbn [length] in Hj; lia).
      specialize (Hp j Hj'). lra.
    + intros [|i] [|j] Hj; cbn [nth]; cbn [length] in Hj; try lia.
      * lra.
      * assert (Hj' : (j < length l)%nat) by lia.
        specialize (Hp j Hj'). lra.
      * apply Hij. lia.
Qed.

Lemma dd_loop_attained (l : list Q) (pk m : Q) :
  let r := snd (fold_left ddStep l (pk, m)) in
  r == m \/
  (exists j, (j < length l)%nat /\ r == pk - nth j l 0) \/
  (exists i j, (i <= j < length l)%nat /\ r == nth i l 0 - nth j l 0).
Proof.
  revert pk m. induction l as [|x l IH]; intros pk m; cbv zeta.
  - left. cbn. lra.
  - cbn [fold_left].
    change (ddStep (pk, m) x) with (dmax pk x, dmax m (dmax pk x - x)).
    specialize (IH (dmax pk x) (dmax m (dmax pk x - x))). cbv zeta in IH.
    set (r := snd (fold_left ddStep l (dmax pk x, dmax m (dmax pk x - x)))) in *.
    pose proof (dmax_cases pk x) as Hpk.
    pose proof (dmax_cases m (dmax pk x - x)) as Hm.
    destruct IH as [IH|[(j & Hj & IH)|(i & j & Hj & IH)]].
    + destruct Hm as [Hm|Hm]; rewrite Hm in IH; [left; exact IH|].
      destruct Hpk as [Hpk|Hpk]; rewrite Hpk in IH.
      * right; left. exists 0%nat. cbn [length nth]. split; [lia|exact IH].
      * right; right. exists 0%nat, 0%nat. cbn [length nth].
        split; [lia|exact IH].
    + destruct Hpk as [Hpk|Hpk]; rewrite Hpk in IH.
      * right; left. exists (S j). cbn [length nth]. split; [lia|exact IH].
      * right; right. exists 0%nat, (S j). cbn [length nth].
        split; [lia|exact IH].
    + right; right. exists (S i), (S j). cbn [length nth].
      split; [lia|exact IH].
Qed.

Lemma computeMaxDrawdown_loop (e0 : Q) (rest : list Q) :
  computeMaxDrawdown (e0 :: rest)
  = snd (fold_left ddStep (e0 :: rest) (e0, 0)).
Proof. reflexivity. Qed.

(** X4: [computeMaxDrawdown] is the largest peak-to-trough fall of the
    curve: it is at least the fall from any point to any later point,
    and on a curve that is not empty it is the fall between two of its
    points (so it is never negative). *)
Theorem max_drawdown_is_largest_fall (curve : list Q) :
  (forall i j, (i <= j < length curve)%nat ->
               nth i curve 0 - nth j curve 0 <= computeMaxDrawdown curve) /\
  (curve = [] \/
   exists i j, (i <= j < length curve)%nat /\
               computeMaxDrawdown curve == nth i curve 0 - nth j curve 0).
Proof.
  destruct curve as [|e0 rest].
  - split; [intros i j Hj; cbn in Hj; lia|]. left; reflexivity.
  - rewrite computeMaxDrawdown_loop. split.
    + apply (dd_loop_upper (e0 :: rest) e0 0).
    + right.
      destruct (dd_loop_attained (e0 :: rest) e0 0)
        as [H|[(j & Hj & H)|(i & j & Hj & H)]].
      * exists 0%nat, 0%nat. cbn [length nth]. split; [lia|].
        rewrite H. lra.
      * exists 0%nat, j. split; [lia|]. exact H.
      * exists i, j. split; assumption.
Qed.

Lemma max_drawdown_is_largest_fall_witness :
  120 - 90 <= computeMaxDrawdown [100; 120; 90; 110].
Proof.
  apply (proj1 (max_drawdown_is_largest_fall [100; 120; 90; 110]) 1%nat 2%nat).
  cbn. lia.
Defined.

Lemma drawdown_fraction (pk x : Q) :
  0 < pk -> x <= pk -> 0 <= (pk - x) / pk /\ (0 <= x -> (pk - x) / pk <= 1).
Proof.
  intros Hpk Hx. split.
  - apply Qle_shift_div_l; [exact Hpk|lra].
  - intros H0. apply Qle_shift_div_r; [exact Hpk|lra].
Qed.

Lemma pctStep_eq (pk m x : Q) :
  pctStep (pk, m) x
  = if dgt (dmax pk x) 0
    then (dmax pk x, dmax m ((dmax pk x - x) / dmax pk x))
    else (dmax pk x, m).
Proof. reflexivity. Qed.

Lemma seriesStep_eq (pk x : Q) (ds : list Q) :
  seriesStep (pk, ds) x
  = (dmax pk x,
     ds ++ [if dgt (dmax pk x) 0 then (dmax pk x - x) / dmax pk x else 0]).
Proof. reflexivity. Qed.

Lemma pct_loop_bounds (l : list Q) (pk m : Q) :
  nonnegative l -> 0 <= m <= 1 ->
  0 <= snd (fold_left pctStep l (pk, m)) <= 1.
Proof.
  revert pk m. induction l as [|x l IH]; intros pk m Hl Hm.
  - exact Hm.
  - cbn [fold_left]. inversion Hl as [|? ? Hx Hl']; subst.
    rewrite pctStep_eq.
    pose proof (dmax_ge_r pk x) as Hr.
    destruct (dgt (dmax pk x) 0) eqn:Hg.
    + apply IH; [exact Hl'|]. apply dgt_true in Hg.
      destruct (drawdown_fraction (dmax pk x) x Hg Hr) as [H0 H1].
      specialize (H1 Hx).
      destruct (dmax_cases m ((dmax pk x - x) / dmax pk x)) as [E|E];
        rewrite E; lra.
    + apply IH; assumption.
Qed.

(** X5: on an equity curve without negative entries
    [computeMaxDrawdownPercent] lies between 0 and 100. *)
Theorem drawdown_percent_bounds (curve : list Q) :
  nonnegative curve ->
  0 <= computeMaxDrawdownPercent curve <= 100.
Proof.
  intros Hc. destruct curve as [|e0 rest]; [cbn; lra|].
  unfold computeMaxDrawdownPercent.
  pose proof (pct_loop_bounds (e0 :: rest) e0 0 Hc ltac:(lra)) as H.
  unfold pctStep in H. lra.
Qed.

Lemma drawdown_percent_bounds_witness :
  0 <= computeMaxDrawdownPercent [100; 120; 90; 110] <= 100.
Proof.
  apply (drawdown_percent_bounds [100; 120; 90; 110]).
  unfold nonnegative. repeat constructor; discriminate.
Defined.

Lemma largest_snoc (ds : list Q) (d : Q) :
  largest (ds ++ [d]) = dmax (largest ds) d.
Proof. unfold largest. rewrite fold_left_app. reflexivity. Qed.

Lemma series_loop (l : list Q) (pk m : Q) (ds : list Q) :
  m = largest ds -> 0 <= m -> nonnegative ds ->
  let s := fold_left seriesStep l (pk, ds) in
  snd (fold_left pctStep l (pk, m)) = largest (snd s) /\
  length (snd s) = (length ds + length l)%nat /\
  nonnegative (snd s).
Proof.
  revert pk m ds. induction l as [|x l IH]; intros pk m ds Hm H0 Hds; cbv zeta.
  - cbn. split; [exact Hm|]. split; [lia|exact Hds].
  - cbn [fold_left length]. rewrite Nat.add_succ_r.
    rewrite pctStep_eq, seriesStep_eq.
    pose proof (dmax_ge_r pk x) as Hr.
    destruct (dgt (dmax pk x) 0) eqn:Hg.
    + apply dgt_true in Hg.
      destruct (drawdown_fraction (dmax pk x) x Hg Hr) as [Hd _].
      specialize (IH (dmax pk x) (dmax m ((dmax pk x - x) / dmax pk x))
                     (ds ++ [(dmax pk x - x) / dmax pk x])).
      cbv zeta in IH. rewrite length_app in IH. cbn [length] in IH.
      rewrite Nat.add_1_r in IH. apply IH.
      * rewrite largest_snoc, Hm. reflexivity.
      * pose proof (dmax_ge_l m ((dmax pk x - x) / dmax pk x)). lra.
      * apply Forall_app. split; [exact Hds|]. constructor; [exact Hd|constructor].
    + specialize (IH (dmax pk x) m (ds ++ [0])).
      cbv zeta in IH. rewrite length_app in IH. cbn [length] in IH.
      rewrite Nat.add_1_r in IH. apply IH.
      * rewrite largest_snoc, <- Hm. unfold dmax.
        destruct (Qlt_le_dec m 0); [lra|reflexivity].
      * exact H0.
      * apply Forall_app. split; [exact Hds|]. constructor; [lra|constructor].
Qed.

(** X6: [computeDrawdownSeries] has one entry per point of the curve,
    none of them negative, and [computeMaxDrawdownPercent] is 100 times
    the largest of them. *)
Theorem drawdown_series_agrees (curve : list Q) :
  length (computeDrawdownSeries curve) = length curve /\
  nonnegative (computeDrawdownSeries curve) /\
  computeMaxDrawdownPercent curve
  == largest (computeDrawdownSeries curve) * 100.
Proof.
  destruct curve as [|e0 rest].
  - cbn. split; [reflexivity|]. split; [constructor|lra].
  - unfold computeMaxDrawdownPercent, computeDrawdownSeries.
    destruct (series_loop (e0 :: rest) e0 0 [] eq_refl ltac:(lra)
                          ltac:(constructor)) as (H1 & H2 & H3).
    unfold pctStep, seriesStep in H1, H2, H3.
    split; [exact H2|]. split; [exact H3|]. rewrite H1. reflexivity.
Qed.

Lemma filter_length_le {A : Type} (f : A -> bool) (l : list A) :
  (length (List.filter f l) <= length l)%nat.
Proof.
  induction l as [|x l IH]; [cbn; lia|].
  cbn [List.filter]. destruct (f x); cbn [length]; lia.
Qed.

Lemma ofNat_pos (n : nat) : (0 < n)%nat -> 0 < ofNat n.
Proof.
  intros H. unfold ofNat, Qlt. cbn. lia.
Qed.

Lemma ofNat_le (a b : nat) : (a <= b)%nat -> ofNat a <= ofNat b.
Proof.
  intros H. unfold ofNat, Qle. cbn. lia.
Qed.

(** X7: [computeWinRate] is a fraction: it lies between 0 and 1 for
    every list of returns. *)
Theorem win_rate_is_fraction (returns : list Q) :
  0 <= computeWinRate returns <= 1.
Proof.
  destruct returns as [|r rest]; [cbn; lra|].
  unfold computeWinRate.
  set (l := r :: rest).
  assert (Hn : 0 < ofNat (length l)) by (apply ofNat_pos; cbn; lia).
  pose proof (ofNat_le _ _ (filter_length_le (fun r => dgt r 0) l)) as Hle.
  assert (H0 : 0 <= ofNat (length (List.filter (fun r => dgt r 0) l)))
    by (unfold ofNat, Qle; cbn; lia).
  split.
  - apply Qle_shift_div_l; [exact Hn|lra].
  - apply Qle_shift_div_r; [exact Hn|lra].
Qed.

Lemma accumulate_from (l : list Q) (a : Q) :
  fold_left Qplus l a == a + accumulate l.
Proof.
  unfold accumulate. revert a. induction l as [|x l IH]; intros a.
  - cbn. lra.
  - cbn [fold_left]. rewrite (IH (a + x)), (IH (0 + x)). lra.
Qed.

End SharpeProps.

(** ** backtest/pnl: reset, locality, round trips and the cash ledger *)

Section PnLQueryProps.
Import PnLTracker PnLTrackerQueries.

Lemma apply_keeps_setup (tr : t) (op : Op) :
  method_ (apply tr op) = method_ tr /\
  initialCash_ (apply tr op) = initialCash_ tr.
Proof.
  destruct op as [sym qty price|sym price|sym qty price|sym price]; cbn [apply].
  - unfold addPosition. destruct (positions_ tr !! sym) as [pos|].
    + destruct (_ || _); [split; reflexivity|].
      destruct (dlt _ dust); split; reflexivity.
    + split; reflexivity.
  - unfold closePosition. destruct (positions_ tr !! sym); split; reflexivity.
  - unfold closePartialPosition. destruct (positions_ tr !! sym) as [pos|];
      [|split; reflexivity].
    destruct (_ || _); split; reflexivity.
  - unfold updatePrice. destruct (positions_ tr !! sym); split; reflexivity.
Qed.

Lemma applyAll_keeps_setup (ops : list Op) (tr : t) :
  method_ (applyAll tr ops) = method_ tr /\
  initialCash_ (applyAll tr ops) = initialCash_ tr.
Proof.
  revert tr. induction ops as [|op ops IH]; intros tr; [split; reflexivity|].
  unfold applyAll. cbn [fold_left]. fold (applyAll (apply tr op) ops).
  destruct (IH (apply tr op)) as [H1 H2].
  destruct (apply_keeps_setup tr op) as [H3 H4].
  split; congruence.
Qed.

(** X9: [reset] undoes everything: after any sequence of operations on a
    tracker, [reset] leaves it exactly as the constructor built it. *)
Theorem tracker_reset_restores_construction
  (initialCash : Q) (method : CostMethod) (ops : list Op) :
  reset (applyAll (create initialCash method) ops) = create initialCash method.
Proof.
  unfold reset.
  destruct (applyAll_keeps_setup ops (create initialCash method)) as [H1 H2].
  rewrite H1, H2. reflexivity.
Qed.

(** X10: an operation touches only the symbol it names: the position and
    the realised PnL recorded for every other symbol are left as they
    were. *)
Theorem tracker_operations_are_local (tr : t) (op : Op) (other : string) :
  opSymbol op <> other ->
  positions_ (apply tr op) !! other = positions_ tr !! other /\
  realizedPnL_ (apply tr op) !! other = realizedPnL_ tr !! other.
Proof.
  intros Hne.
  destruct op as [sym qty price|sym price|sym qty price|sym price];
    cbn [apply opSymbol] in *.
  - unfold addPosition. destruct (positions_ tr !! sym) as [pos|];
      cbn [positions_ realizedPnL_].
    + destruct (_ || _); cbn [positions_ realizedPnL_].
      * rewrite lookup_insert_ne by exact Hne. split; reflexivity.
      * unfold addRealized. rewrite lookup_insert_ne by exact Hne.
        destruct (dlt _ dust);
          [rewrite lookup_delete_ne by exact Hne
          |rewrite lookup_insert_ne by exact Hne]; split; reflexivity.
    + rewrite lookup_insert_ne by exact Hne. split; reflexivity.
  - unfold closePosition. destruct (positions_ tr !! sym) as [pos|];
      [|split; reflexivity].
    cbn [positions_ realizedPnL_]. unfold addRealized.
    rewrite lookup_delete_ne, lookup_insert_ne by exact Hne.
    split; reflexivity.
  - unfold closePartialPosition. destruct (positions_ tr !! sym) as [pos|];
      [|split; reflexivity].
    destruct (_ || _); [|split; reflexivity].
    cbn [positions_ realizedPnL_]. unfold addRealized.
    rewrite lookup_insert_ne by exact Hne.
    destruct (dlt _ dust);
      [rewrite lookup_delete_ne by exact Hne
      |rewrite lookup_insert_ne by exact Hne]; split; reflexivity.
  - unfold updatePrice. destruct (positions_ tr !! sym) as [pos|];
      [|split; reflexivity].
    cbn [positions_ realizedPnL_].
    rewrite lookup_insert_ne by exact Hne. split; reflexivity.
Qed.

Lemma tracker_operations_are_local_witness :
  let tr := addPosition (create 1000 AVERAGE) "MSFT" 2 50 in
  positions_ (apply tr (ClosePosition "AAPL" 10)) !! "MSFT"
  = positions_ tr !! "MSFT" /\
  realizedPnL_ (apply tr (ClosePosition "AAPL" 10)) !! "MSFT"
  = realizedPnL_ tr !! "MSFT".
Proof.
  cbv zeta.
  apply (tracker_operations_are_local
           (addPosition (create 1000 AVERAGE) "MSFT" 2 50)
           (ClosePosition "AAPL" 10) "MSFT").
  cbn. discriminate.
Defined.

(** X11: opening a position in a symbol that has none and closing it
    again leaves no position; the cash is the old cash less the cost
    [q * p0] of the opening trade plus the proceeds [q * p1] of the
    closing one, the realised PnL of the symbol grows by
    [(p1 - p0) * q], and the history gains the two transactions with
    quantities [q] and [- q].  This holds for long and for short
    quantities. *)
Theorem tracker_open_close_round_trip (tr : t) (sym : string) (q p0 p1 : Q) :
  positions_ tr !! sym = None ->
  let tr' := closePosition (addPosition tr sym q p0) sym p1 in
  hasPosition tr' sym = false /\
  cash_ tr' = cash_ tr - q * p0 + q * p1 /\
  getRealizedPnL tr' sym = getRealizedPnL tr sym + (p1 - p0) * q /\
  map txQuantity (getTransactionHistory tr')
  = map txQuantity (getTransactionHistory tr) ++ [q; - q].
Proof.
  intros Hnone. cbv zeta.
  unfold addPosition. rewrite Hnone.
  unfold closePosition. cbn [positions_]. rewrite lookup_insert_eq.
  cbn [quantity avgEntryPrice cash_ realizedPnL_ transactions_].
  unfold hasPosition, getRealizedPnL, getTransactionHistory, addRealized.
  cbn [positions_ realizedPnL_ transactions_ cash_].
  rewrite lookup_delete_eq, lookup_insert_eq.
  split; [reflexivity|]. split; [reflexivity|]. split.
  - destruct (realizedPnL_ tr !! sym); reflexivity.
  - rewrite !map_app. cbn [map txQuantity]. rewrite <- app_assoc. reflexivity.
Qed.

Lemma tracker_open_close_round_trip_witness :
  let tr' := closePosition (addPosition (create 1000 AVERAGE) "AAPL" (-3) 100)
                           "AAPL" 90 in
  hasPosition tr' "AAPL" = false /\
  cash_ tr' = cash_ (create 1000 AVERAGE) - (-3) * 100 + (-3) * 90 /\
  getRealizedPnL tr' "AAPL"
  = getRealizedPnL (create 1000 AVERAGE) "AAPL" + (90 - 100) * (-3) /\
  map txQuantity (getTransactionHistory tr')
  = map txQuantity (getTransactionHistory (create 1000 AVERAGE))
    ++ [-3; - (-3)].
Proof.
  apply (tracker_open_close_round_trip (create 1000 AVERAGE) "AAPL"
                                       (-3) 100 90).
  reflexivity.
Defined.

Lemma settle_snoc (cash : Q) (txns : list Transaction) (txn : Transaction) :
  settle cash (txns ++ [txn])
  = settle cash txns - txQuantity txn * txPrice txn.
Proof. unfold settle. rewrite fold_left_app. reflexivity. Qed.

Lemma apply_keeps_ledger (tr : t) (op : Op) :
  isPartialClose op = false -> ledgerBalanced tr ->
  ledgerBalanced (apply tr op).
Proof.
  unfold ledgerBalanced, getTransactionHistory. intros Hop Hl.
  destruct op as [sym qty price|sym price|sym qty price|sym price];
    cbn [apply isPartialClose] in *; [| | discriminate |].
  - unfold addPosition.
    destruct (match positions_ tr !! sym with Some _ => _ | None => _ end)
      as [positions' realized'].
    cbn [cash_ initialCash_ transactions_].
    rewrite settle_snoc. cbn [txQuantity txPrice]. lra.
  - unfold closePosition. destruct (positions_ tr !! sym) as [pos|];
      [|exact Hl].
    cbn [cash_ initialCash_ transactions_].
    rewrite settle_snoc. cbn [txQuantity txPrice]. lra.
  - unfold updatePrice. destruct (positions_ tr !! sym) as [pos|];
      [|exact Hl].
    cbn [cash_ initialCash_ transactions_]. exact Hl.
Qed.

(** X12: as long as [closePartialPosition] is not used, the cash balance
    is what is left of the initial cash when the quantity times the
    price of each recorded transaction is subtracted from it, one
    transaction after the other in the order of the history. *)
Theorem tracker_cash_ledger
  (initialCash : Q) (method : CostMethod) (ops : list Op) :
  forallb (fun op => negb (isPartialClose op)) ops = true ->
  ledgerBalanced (applyAll (create initialCash method) ops).
Proof.
  assert (H : forall tr, ledgerBalanced tr ->
                forallb (fun op => negb (isPartialClose op)) ops = true ->
                ledgerBalanced (applyAll tr ops)).
  { induction ops as [|op ops IH]; intros tr Hl Hops; [exact Hl|].
    cbn [forallb] in Hops. apply andb_prop in Hops. destruct Hops as [Hop Hops].
    unfold applyAll. cbn [fold_left]. apply IH; [|exact Hops].
    apply apply_keeps_ledger; [|exact Hl].
    destruct (isPartialClose op); [discriminate|reflexivity]. }
  intros Hops. apply H; [|exact Hops].
  unfold ledgerBalanced, getTransactionHistory, settle. cbn. reflexivity.
Qed.

Lemma tracker_cash_ledger_witness :
  ledgerBalanced
    (applyAll (create 1000 AVERAGE)
              [AddPosition "AAPL" 2 100; UpdatePrice "AAPL" 110;
               AddPosition "AAPL" (-5) 120; ClosePosition "AAPL" 90]).
Proof.
  apply (tracker_cash_ledger 1000 AVERAGE
           [AddPosition "AAPL" 2 100; UpdatePrice "AAPL" 110;
            AddPosition "AAPL" (-5) 120; ClosePosition "AAPL" 90]).
  reflexivity.
Defined.

Lemma addPosition_fresh (tr : t) (sym : string) (q p : Q) :
  positions_ tr !! sym = None ->
  positions_ (addPosition tr sym q p)
  = <[sym := mkPosition sym q p p 0 0 (Qabs q * p)]> (positions_ tr) /\
  method_ (addPosition tr sym q p) = method_ tr.
Proof.
  intros Hnone. unfold addPosition. rewrite Hnone. split; reflexivity.
Qed.

Lemma addPosition_long_more (tr : t) (sym : string) (pos : Position) (q p : Q) :
  positions_ tr !! sym = Some pos -> 0 < quantity pos -> 0 < q ->
  positions_ (addPosition tr sym q p)
  = <[sym := updatePositionCost (method_ tr) pos q p]> (positions_ tr).
Proof.
  intros Hpos Hq0 Hq. unfold addPosition. rewrite Hpos.
  rewrite (proj2 (dgt_true (quantity pos) 0) Hq0), (proj2 (dgt_true q 0) Hq).
  reflexivity.
Qed.

(** X13: two purchases into a symbol that has no position give a
    position that holds the sum of the two quantities, whose entry price
    is the volume-weighted average [(p1 q1 + p2 q2) / (q1 + q2)] of the
    two prices, and whose total cost is its quantity times that entry
    price, whichever cost method the tracker was built with. *)
Theorem tracker_average_entry_price
  (tr : t) (sym : string) (q1 p1 q2 p2 : Q) :
  positions_ tr !! sym = None -> 0 < q1 -> 0 < q2 ->
  let pos := getPosition (addPosition (addPosition tr sym q1 p1) sym q2 p2)
                         sym in
  quantity pos = q1 + q2 /\
  avgEntryPrice pos == (p1 * q1 + p2 * q2) / (q1 + q2) /\
  totalCost pos == quantity pos * avgEntryPrice pos.
Proof.
  intros Hnone H1 H2. cbv zeta.
  destruct (addPosition_fresh tr sym q1 p1 Hnone) as [Hp1 Hm1].
  unfold getPosition.
  rewrite (addPosition_long_more (addPosition tr sym q1 p1) sym
             (mkPosition sym q1 p1 p1 0 0 (Qabs q1 * p1)) q2 p2);
    [|rewrite Hp1; apply lookup_insert_eq|exact H1|exact H2].
  rewrite lookup_insert_eq, Hm1.
  assert (Ha1 : Qabs q1 == q1) by (apply Qabs_pos; lra).
  assert (Ha2 : Qabs q2 == q2) by (apply Qabs_pos; lra).
  assert (Ha : Qabs (q1 + q2) == q1 + q2) by (apply Qabs_pos; lra).
  destruct (method_ tr); unfold updatePositionCost;
    cbn [quantity avgEntryPrice totalCost];
    (split; [reflexivity|]);
    rewrite Ha1, Ha2, Ha;
    (split; reflexivity).
Qed.

Lemma tracker_average_entry_price_witness :
  let pos := getPosition
               (addPosition (addPosition (create 1000 FIFO) "AAPL" 1 100)
                            "AAPL" 3 120) "AAPL" in
  quantity pos = 1 + 3 /\
  avgEntryPrice pos == (100 * 1 + 120 * 3) / (1 + 3) /\
  totalCost pos == quantity pos * avgEntryPrice pos.
Proof.
  apply (tracker_average_entry_price (create 1000 FIFO) "AAPL" 1 100 3 120);
    reflexivity.
Defined.

End PnLQueryProps.

(** ** backtest/backtester: what [run] reports *)

Section BacktesterRunProps.
Import Backtester.

Lemma positive_is_not_zero (x : Q) : dgt x 0 = true -> Qeq_bool x 0 = false.
Proof.
  intros H. apply dgt_true in H.
  destruct (Qeq_bool x 0) eqn:E; [|reflexivity].
  apply Qeq_bool_iff in E. lra.
Qed.

Lemma exitPosition_flat (bt : t) (tick : Market.MarketTick) (reason : string) :
  Qeq_bool (currentPosition_ bt) 0 = false ->
  currentPosition_ (exitPosition bt tick reason) = 0 /\
  avgEntryPrice_ (exitPosition bt tick reason) = 0.
Proof.
  intros H. unfold exitPosition. rewrite H. split; reflexivity.
Qed.

Lemma step_trades (G : Type) (sf : G -> Market.MarketTick -> Z * G)
  (l : Loop G) (tick : Market.MarketTick) :
  ltrades G (step G sf l tick) = ltrades G l \/
  exists tr, ltrades G (step G sf l tick) = ltrades G l ++ [tr] /\ flatTrade tr.
Proof.
  unfold step. destruct (sf (gen G l) tick) as [sg g'].
  destruct ((sg =? 1)%Z && dle (currentPosition_ (self G l)) 0).
  { destruct (canEnterPosition _ _ _); left; reflexivity. }
  destruct ((sg =? -1)%Z && dge (currentPosition_ (self G l)) 0);
    [|left; reflexivity].
  destruct (dgt (currentPosition_ (self G l)) 0) eqn:Hpos.
  - right.
    destruct (exitPosition_flat (self G l) tick "SIGNAL_SELL"
                                (positive_is_not_zero _ Hpos)) as [Hq Ha].
    eexists. split.
    + destruct (enableShortSelling _); [destruct (canEnterPosition _ _ _)|];
        reflexivity.
    + unfold flatTrade. cbn [quantity entryPrice pnl].
      rewrite Hq, Ha. repeat split; lra.
  - left. destruct (enableShortSelling _); [destruct (canEnterPosition _ _ _)|];
      reflexivity.
Qed.

Lemma fold_step_trades (G : Type) (sf : G -> Market.MarketTick -> Z * G)
  (data : list Market.MarketTick) (l : Loop G) :
  Forall flatTrade (ltrades G l) ->
  Forall flatTrade (ltrades G (fold_left (step G sf) data l)).
Proof.
  revert l. induction data as [|tick data IH]; intros l Hl; [exact Hl|].
  cbn [fold_left]. apply IH.
  destruct (step_trades G sf l tick) as [H|(tr & H & Hf)]; rewrite H.
  - exact Hl.
  - apply Forall_app. split; [exact Hl|]. constructor; [exact Hf|constructor].
Qed.

Lemma runLoop_trades (G : Type) (sf : G -> Market.MarketTick -> Z * G)
  (bt : t) (g : G) (data : list Market.MarketTick) :
  Forall flatTrade (ltrades G (runLoop G sf bt g data)).
Proof.
  unfold runLoop. cbv zeta.
  match goal with
  | |- context [fold_left (step G sf) data ?l0] =>
      pose proof (fold_step_trades G sf data l0 ltac:(constructor)) as H
  end.
  destruct (last data); [|exact H].
  destruct (negb _); exact H.
Qed.

Lemma tally_flat (trs : list Trade) (t0 w l : Q) (nw nl : nat) :
  Forall flatTrade trs ->
  exists t1, fold_left tallyStep trs (t0, w, l, nw, nl) = (t1, w, l, nw, nl)
             /\ t1 == t0.
Proof.
  intros H. revert t0. induction H as [|tr trs Htr _ IH]; intros t0.
  - exists t0. split; [reflexivity|lra].
  - cbn [fold_left]. destruct Htr as (_ & _ & Hp).
    unfold tallyStep at 2.
    rewrite (proj2 (dgt_false (pnl tr) 0)) by lra.
    rewrite (proj2 (dlt_false (pnl tr) 0)) by lra.
    destruct (IH (t0 + pnl tr)) as (t1 & H1 & H2).
    exists t1. split; [exact H1|lra].
Qed.

(** X14: whatever the configuration, the signal generator and the data,
    every trade that [run] reports has quantity 0, entry price 0 and
    PnL 0, because the record is filled in after the position has been
    closed; so the reported total PnL, numbers of winning and of losing
    trades, win rate, profit factor and expectancy are all 0. *)
Theorem run_reports_flat_trades
  (dsqrt : Q -> Q) (G : Type) (sf : G -> Market.MarketTick -> Z * G)
  (bt : t) (g : G) (data : list Market.MarketTick) :
  let r := run dsqrt G sf bt g data in
  Forall flatTrade (trades r) /\
  totalPnL r == 0 /\
  numWinningTrades r = 0%nat /\ numLosingTrades r = 0%nat /\
  winRate r == 0 /\ profitFactor r == 0 /\ expectancy r == 0.
Proof.
  cbv zeta. unfold run. cbv zeta.
  pose proof (runLoop_trades G sf bt g data) as Hflat.
  set (lp := runLoop G sf bt g data) in *.
  set (trs := ltrades G lp) in *. clearbody trs.
  unfold computeResults. cbv zeta.
  destruct trs as [|tr trs'].
  - cbn. repeat split; try reflexivity. constructor.
  - set (all := tr :: trs') in *.
    destruct (tally_flat all 0 0 0 0%nat 0%nat Hflat) as (t1 & Ht & Ht1).
    unfold tally. rewrite Ht.
    cbn [trades totalPnL numWinningTrades numLosingTrades winRate
         profitFactor expectancy Nat.ltb Nat.leb].
    rewrite (proj2 (dgt_false 0 0)) by lra.
    change (ofNat 0) with 0.
    split; [exact Hflat|]. split; [exact Ht1|].
    split; [reflexivity|]. split; [reflexivity|].
    split; [unfold Qdiv; lra|]. split; [reflexivity|].
    rewrite Ht1. unfold Qdiv. lra.
Qed.

End BacktesterRunProps.

(** ** alpha/orderflow: the engine over any sequence of calls *)

Section EngineProps.
Import OrderFlowEngine.

Lemma onTick_members (e : t) (tick : Market.MarketTick) (isBuy : bool) :
  let e' := fst (onTick e tick isBuy) in
  let avg := (ofNat (tickCount_ e) * avgVolume_ e + Market.volume tick)
             / ofNat (S (tickCount_ e)) in
  ofi_ e' = OrderFlowImbalance.onTrade (ofi_ e) (Market.price tick)
              (Market.volume tick) isBuy (Market.timestamp tick) /\
  pressure_ e' = BidAskPressure.onTrade (pressure_ e) isBuy
                   (Market.volume tick) /\
  aggression_ e' = TradeAggression.onTrade (aggression_ e)
                     (Market.volume tick) avg isBuy /\
  volumeDelta_ e' = VolumeDelta.onTrade (volumeDelta_ e)
                      (Market.volume tick) isBuy /\
  avgVolume_ e' = avg /\
  tickCount_ e' = S (tickCount_ e) /\
  (toxicity_ e' = toxicity_ e \/
   exists a b c, toxicity_ e' = FlowToxicity.update (toxicity_ e) a b c).
Proof.
  cbv zeta. unfold onTick. cbv zeta.
  replace (S (tickCount_ e) - 1)%nat with (tickCount_ e) by lia.
  destruct (OrderFlowImbalance.getOFI _) as [r|];
    cbn [fst ofi_ pressure_ aggression_ volumeDelta_ avgVolume_ tickCount_
         toxicity_];
    repeat split; try reflexivity.
  - right. eexists _, _, _. reflexivity.
  - left. reflexivity.
Qed.

Lemma onTick_asConstructed (e : t) (tick : Market.MarketTick) (isBuy : bool) :
  asConstructed e -> asConstructed (fst (onTick e tick isBuy)).
Proof.
  intros (H1 & H2 & H3 & H4 & H5 & H6).
  destruct (onTick_members e tick isBuy) as (Ho & Hp & Ha & _ & _ & _ & Ht).
  cbv zeta in *. unfold asConstructed. rewrite Ho, Hp, Ha.
  split; [rewrite (proj2 (onTrade_fits_window _ _ _ _ _)); exact H1|].
  split; [exact H2|]. split; [exact H3|].
  destruct Ht as [Ht|(a & b & c & Ht)]; rewrite Ht; cbn; auto.
Qed.

Lemma create_asConstructed : asConstructed create.
Proof. unfold asConstructed. cbn. repeat split; reflexivity. Qed.

Lemma reset_asConstructed (e : t) : asConstructed e -> asConstructed (reset e).
Proof. intros H. exact H. Qed.

(** Invariants of the engine are established along [engineRun] by showing
    them for the constructor and preserved by [onTick] and [reset]. *)
Lemma engineRun_invariant (I : t -> Prop)
  (P : OrderFlowSignal -> Prop) (ok : EngineCall -> Prop) :
  (forall e tick isBuy, I e -> ok (CallOnTick tick isBuy) ->
     I (fst (onTick e tick isBuy)) /\
     match snd (onTick e tick isBuy) with Some s => P s | None => True end) ->
  (forall e, I e -> I (reset e)) ->
  forall calls e, I e -> Forall ok calls ->
    I (fst (engineRun e calls)) /\ everySignal P (snd (engineRun e calls)).
Proof.
  intros Htick Hreset. induction calls as [|c calls IH]; intros e He Hok.
  - cbn. split; [exact He|constructor].
  - inversion Hok as [|? ? Hc Hrest]; subst. destruct c as [tick isBuy|].
    + cbn [engineRun]. destruct (Htick e tick isBuy He Hc) as [H1 H2].
      destruct (onTick e tick isBuy) as [e1 out]. cbn [fst snd] in H1, H2.
      destruct (IH e1 H1 Hrest) as [H3 H4].
      destruct (engineRun e1 calls) as [e2 outs]. cbn [fst snd] in *.
      split; [exact H3|]. constructor; assumption.
    + cbn [engineRun]. apply IH; [apply Hreset; exact He|exact Hrest].
Qed.

Lemma maintainWindow_keeps_one (fuel : nat) (o : OrderFlowImbalance.t) :
  (2 <= OrderFlowImbalance.window_ o)%nat ->
  (1 <= length (OrderFlowImbalance.buyVolumes_ o)
        + length (OrderFlowImbalance.sellVolumes_ o))%nat ->
  let o' := OrderFlowImbalance.maintainWindow fuel o in
  (1 <= length (OrderFlowImbalance.buyVolumes_ o')
        + length (OrderFlowImbalance.sellVolumes_ o'))%nat.
Proof.
  revert o. induction fuel as [|fuel IH]; intros o Hw Hn;
    cbn [OrderFlowImbalance.maintainWindow]; cbv zeta; [exact Hn|].
  destruct (_ <? _)%nat eqn:Hc; [|exact Hn].
  apply Nat.ltb_lt in Hc. apply IH.
  - exact Hw.
  - cbn [OrderFlowImbalance.buyVolumes_ OrderFlowImbalance.sellVolumes_].
    destruct (OrderFlowImbalance.buyVolumes_ o);
      destruct (OrderFlowImbalance.sellVolumes_ o); cbn in *; lia.
Qed.

Lemma onTrade_keeps_one (o : OrderFlowImbalance.t) (p v : Q) (isBuy : bool)
  (ts : Z) :
  (2 <= OrderFlowImbalance.window_ o)%nat ->
  OrderFlowImbalance.getOFI (OrderFlowImbalance.onTrade o p v isBuy ts)
  <> None.
Proof.
  intros Hw. unfold OrderFlowImbalance.onTrade. cbv zeta.
  match goal with
  | |- context [OrderFlowImbalance.maintainWindow ?f ?x] =>
      assert (H : (1 <= length (OrderFlowImbalance.buyVolumes_
                                  (OrderFlowImbalance.maintainWindow f x))
                       + length (OrderFlowImbalance.sellVolumes_
                                   (OrderFlowImbalance.maintainWindow f x)))%nat)
  end.
  { apply maintainWindow_keeps_one.
    - destruct isBuy; exact Hw.
    - destruct isBuy; cbn; rewrite length_app; cbn; lia. }
  unfold OrderFlowImbalance.getOFI.
  destruct (OrderFlowImbalance.buyVolumes_ _);
    destruct (OrderFlowImbalance.sellVolumes_ _);
    cbn in H; try lia; discriminate.
Qed.

(** X16: an engine that was constructed and then used in any way always
    answers [onTick] with a signal: the branch that returns no value is
    never taken. *)
Theorem engine_always_signals (calls : list EngineCall) :
  Forall (fun o => o <> None) (snd (engineRun create calls)).
Proof.
  assert (H : forall calls e, asConstructed e ->
                Forall (fun o => o <> None) (snd (engineRun e calls))).
  { clear calls. induction calls as [|c calls IH]; intros e He.
    - constructor.
    - destruct c as [tick isBuy|]; cbn [engineRun].
      + pose proof (onTick_asConstructed e tick isBuy He) as He1.
        assert (Hout : snd (onTick e tick isBuy) <> None).
        { unfold onTick. cbv zeta.
          pose proof (onTrade_keeps_one (ofi_ e) (Market.price tick)
                        (Market.volume tick) isBuy (Market.timestamp tick))
            as Hk.
          destruct He as (Hw & _). rewrite Hw in Hk.
          specialize (Hk ltac:(lia)).
          destruct (OrderFlowImbalance.getOFI _); [discriminate|contradiction]. }
        destruct (onTick e tick isBuy) as [e1 out]. cbn [fst snd] in *.
        specialize (IH e1 He1).
        destruct (engineRun e1 calls) as [e2 outs]. cbn [snd] in *.
        constructor; assumption.
      + apply IH. apply reset_asConstructed. exact He. }
  apply H. apply create_asConstructed.
Qed.















Lemma onTick_booked (e : t) (tick : Market.MarketTick) (isBuy : bool)
  (fed : list (Q * bool)) :
  booked e fed ->
  booked (fst (onTick e tick isBuy)) (fed ++ [(Market.volume tick, isBuy)]).
Proof.
  intros (Hn & Hd).
  destruct (onTick_members e tick isBuy) as (_ & _ & _ & Hv & _ & Hc & _).
  cbv zeta in *. unfold booked.
  rewrite Hc, Hv, fold_left_app, length_app. cbn [length fold_left].
  split; [lia|].
  unfold VolumeDelta.getCumulativeDelta, VolumeDelta.onTrade in *.
  cbn [VolumeDelta.cumulativeDelta_]. rewrite Hd. reflexivity.
Qed.

Lemma reset_booked (e : t) : booked (reset e) [].
Proof. split; reflexivity. Qed.

(** X19: the engine's counters describe the ticks fed since the last
    [reset] (since the construction, if there was none): [tickCount_] is
    their number, and the cumulative delta is the running total of their
    signed volumes, the volume of a buy and the negated volume of a sell,
    added in the order of the ticks. *)
Theorem engine_counters_since_reset (calls : list EngineCall) :
  booked (fst (engineRun create calls)) (sinceReset calls).
Proof.
  unfold sinceReset.
  assert (H : forall calls e fed, booked e fed ->
                booked (fst (engineRun e calls))
                       (fold_left (fun acc c =>
                          match c with
                          | CallOnTick tick isBuy =>
                              acc ++ [(Market.volume tick, isBuy)]
                          | CallReset => []
                          end) calls fed)).
  { clear calls. induction calls as [|c calls IH]; intros e fed He.
    - exact He.
    - destruct c as [tick isBuy|]; cbn [engineRun fold_left].
      + pose proof (onTick_booked e tick isBuy fed He) as H1.
        destruct (onTick e tick isBuy) as [e1 out]. cbn [fst] in H1.
        specialize (IH e1 _ H1).
        destruct (engineRun e1 calls) as [e2 outs]. exact IH.
      + apply IH. apply reset_booked. }
  apply H. split; reflexivity.
Qed.

Lemma popWhileOver_length {A : Type} (w : nat) (l : list A) :
  (length (popWhileOver w l) <= w)%nat.
Proof. unfold popWhileOver. rewrite length_skipn. lia. Qed.

Lemma popIfOver_fits {A : Type} (w : nat) (l : list A) (x : A) :
  (length l <= w)%nat -> (length (popIfOver w (l ++ [x])) <= w)%nat.
Proof.
  intros H. unfold popIfOver. rewrite length_app. cbn [length].
  destruct (w <? length l + 1)%nat eqn:Hc.
  - destruct l as [|y l]; cbn [app tail length] in *; [lia|].
    rewrite length_app. cbn [length]. lia.
  - apply Nat.ltb_ge in Hc. rewrite length_app. cbn [length]. lia.
Qed.

(** X20: the memory of a constructed engine is bounded whatever it is
    fed: the imbalance window never holds more than 100 volumes, the
    pressure queues 50 each, the aggression scores 30 and the recent
    deltas 50. *)
Theorem engine_queues_bounded (calls : list EngineCall) :
  queuesBounded (fst (engineRun create calls)).
Proof.
  refine (proj2 (proj1 (engineRun_invariant
                   (fun e => asConstructed e /\ queuesBounded e)
                   (fun _ => True) (fun _ => True) _ _ calls create _ _))).
  - intros e tick isBuy [He Hq] _.
    split; [|destruct (snd (onTick e tick isBuy)); exact I].
    split; [apply onTick_asConstructed; exact He|].
    destruct (onTick_members e tick isBuy) as (Ho & Hp & Ha & Hv & _).
    cbv zeta in *. destruct He as (H1 & H2 & H3 & _).
    destruct Hq as (_ & _ & _ & Q4 & Q5).
    unfold queuesBounded. rewrite Ho, Hp, Ha, Hv.
    split.
    { destruct (onTrade_fits_window (ofi_ e) (Market.price tick)
                  (Market.volume tick) isBuy (Market.timestamp tick))
        as [Hf Hw]. cbv zeta in Hf, Hw. rewrite Hw, H1 in Hf. exact Hf. }
    unfold BidAskPressure.onTrade. cbv zeta.
    cbn [BidAskPressure.bidVolumes_ BidAskPressure.askVolumes_]. rewrite H2.
    split; [apply popWhileOver_length|]. split; [apply popWhileOver_length|].
    unfold TradeAggression.onTrade, VolumeDelta.onTrade. cbv zeta.
    cbn [TradeAggression.aggressionScores_ VolumeDelta.recentDeltas_].
    rewrite H3.
    split; apply popIfOver_fits; assumption.
  - intros e [He Hq]. split; [exact He|].
    destruct Hq as (Q1 & Q2 & Q3 & Q4 & Q5).
    unfold queuesBounded, reset.
    cbn [ofi_ pressure_ aggression_ volumeDelta_ VolumeDelta.reset
         VolumeDelta.recentDeltas_ length].
    repeat split; try assumption; lia.
  - split; [apply create_asConstructed|].
    unfold queuesBounded. cbn. lia.
  - apply Forall_forall. intros; exact I.
Qed.

End EngineProps.

(** ** Order flow: the two pressures *)

Section OrderFlowPressureProps.
Import OrderFlowImbalance.




End OrderFlowPressureProps.

(** ** alpha/vwap: the streaming calculator against the batch function *)

Section VWAPProps.
Import VWAPCalculator.

Lemma rolling_loop (ticks : list Market.MarketTick) (pv v pv2 : Q) :
  fst (fold_left rollingStep ticks (pv, v, pv2))
  = fold_left vwap.vwapStep ticks (pv, v).
Proof.
  revert pv v pv2. induction ticks as [|tick ticks IH]; intros pv v pv2;
    [reflexivity|].
  cbn [fold_left]. apply IH.
Qed.

Lemma session_feed (ticks : list Market.MarketTick) (c : t) :
  rollingWindow_ c = 0%nat ->
  let c' := vwapFeed c ticks in
  rollingWindow_ c' = 0%nat /\
  (cumulativePV_ c', cumulativeVolume_ c')
  = fold_left vwap.vwapStep ticks (cumulativePV_ c, cumulativeVolume_ c) /\
  (ticks <> [] ->
   vwap_ c' = if dgt (cumulativeVolume_ c') 0
              then cumulativePV_ c' / cumulativeVolume_ c' else 0).
Proof.
  revert c. induction ticks as [|tick ticks IH]; intros c Hw; cbv zeta.
  - cbn. split; [exact Hw|]. split; [reflexivity|]. intros H; contradiction.
  - unfold vwapFeed. cbn [fold_left]. fold (vwapFeed (onTick c tick) ticks).
    assert (H1 : rollingWindow_ (onTick c tick) = 0%nat
                 /\ cumulativePV_ (onTick c tick)
                    = cumulativePV_ c + Market.price tick * Market.volume tick
                 /\ cumulativeVolume_ (onTick c tick)
                    = cumulativeVolume_ c + Market.volume tick
                 /\ vwap_ (onTick c tick)
                    = if dgt (cumulativeVolume_ (onTick c tick)) 0
                      then cumulativePV_ (onTick c tick)
                           / cumulativeVolume_ (onTick c tick)
                      else 0).
    { unfold onTick. rewrite Hw. cbn. repeat split; try reflexivity.
      exact Hw. }
    destruct H1 as (Hw1 & Hpv & Hv & Hvw).
    destruct (IH (onTick c tick) Hw1) as (Ha & Hb & Hc). cbv zeta in *.
    split; [exact Ha|]. split.
    + rewrite Hb, Hpv, Hv. reflexivity.
    + intros _. destruct ticks as [|t2 ticks'].
      * exact Hvw.
      * apply Hc. discriminate.
Qed.

(** X21: in session mode (rolling window 0) a calculator whose sums are
    zero, as the constructor, [reset] and [anchor] leave them, reports
    after any ticks exactly what [vwap::computeVWAP] computes from those
    ticks. *)
Theorem session_vwap_is_batch_vwap (c : t) (ticks : list Market.MarketTick) :
  rollingWindow_ c = 0%nat ->
  cumulativePV_ c = 0 -> cumulativeVolume_ c = 0 -> ticks <> [] ->
  getVWAP (vwapFeed c ticks) = vwap.computeVWAP ticks.
Proof.
  intros Hw Hpv Hv Hne.
  destruct (session_feed ticks c Hw) as (_ & Hs & Hvw). cbv zeta in *.
  unfold getVWAP. rewrite (Hvw Hne).
  rewrite Hpv, Hv in Hs. unfold vwap.computeVWAP.
  destruct ticks as [|t1 ticks']; [contradiction|].
  destruct (fold_left vwap.vwapStep (t1 :: ticks') (0, 0)) as [sumPV sumV].
  inversion Hs. reflexivity.
Qed.

Lemma session_vwap_is_batch_vwap_witness :
  getVWAP (vwapFeed (anchor (vwapFeed (create 2 0)
                                      [Market.mkTick "AAPL" 50 7 0%Z]))
                    [Market.mkTick "AAPL" 100 1 1%Z;
                     Market.mkTick "AAPL" 110 3 2%Z])
  = vwap.computeVWAP [Market.mkTick "AAPL" 100 1 1%Z;
                      Market.mkTick "AAPL" 110 3 2%Z].
Proof.
  apply (session_vwap_is_batch_vwap
           (anchor (vwapFeed (create 2 0) [Market.mkTick "AAPL" 50 7 0%Z]))
           [Market.mkTick "AAPL" 100 1 1%Z; Market.mkTick "AAPL" 110 3 2%Z]);
    [reflexivity|reflexivity|reflexivity|discriminate].
Defined.

Lemma skipn_S_tail {A : Type} (k : nat) (l : list A) :
  skipn (S k) l = tail (skipn k l).
Proof.
  revert l. induction k as [|k IH]; intros l.
  - destruct l; reflexivity.
  - destruct l as [|x l]; [reflexivity|].
    change (skipn (S (S k)) (x :: l)) with (skipn (S k) l).
    change (skipn (S k) (x :: l)) with (skipn k l). apply IH.
Qed.

Lemma lastN_length {A : Type} (n : nat) (l : list A) :
  (length (lastN n l) <= n)%nat.
Proof. unfold lastN. rewrite length_skipn. lia. Qed.

Lemma lastN_snoc {A : Type} (n : nat) (l : list A) (x : A) :
  (0 < n)%nat -> popIfOver n (lastN n l ++ [x]) = lastN n (l ++ [x]).
Proof.
  intros Hn. unfold popIfOver, lastN.
  rewrite !length_app, length_skipn. cbn [length].
  destruct (Nat.lt_ge_cases (length l) n) as [Hlt|Hge].
  - replace (length l - n)%nat with 0%nat by lia.
    replace (length l + 1 - n)%nat with 0%nat by lia.
    cbn [skipn].
    destruct (n <? length l - 0 + 1)%nat eqn:Hc; [|reflexivity].
    apply Nat.ltb_lt in Hc. lia.
  - destruct (n <? length l - (length l - n) + 1)%nat eqn:Hc.
    + replace (length l + 1 - n)%nat with (S (length l - n)) by lia.
      rewrite skipn_S_tail, skipn_app.
      replace (length l - n - length l)%nat with 0%nat by lia.
      cbn [skipn].
      destruct (skipn (length l - n) l) as [|y rest] eqn:Hs; [|reflexivity].
      apply (f_equal (@length A)) in Hs. rewrite length_skipn in Hs.
      cbn in Hs. lia.
    + apply Nat.ltb_ge in Hc. lia.
Qed.

Lemma vwapFeed_snoc (c : t) (ticks : list Market.MarketTick)
  (tick : Market.MarketTick) :
  vwapFeed c (ticks ++ [tick]) = onTick (vwapFeed c ticks) tick.
Proof. unfold vwapFeed. rewrite fold_left_app. reflexivity. Qed.

Lemma updateRollingVWAP_vwap (c : t) :
  vwap_ (updateRollingVWAP c) = vwap.computeVWAP (tickWindow_ c) /\
  tickWindow_ (updateRollingVWAP c) = tickWindow_ c /\
  rollingWindow_ (updateRollingVWAP c) = rollingWindow_ c.
Proof.
  unfold updateRollingVWAP, vwap.computeVWAP.
  destruct (tickWindow_ c) as [|t1 w] eqn:Hw.
  - cbn. repeat split.
  - pose proof (rolling_loop (t1 :: w) 0 0 0) as Hl.
    destruct (fold_left rollingStep (t1 :: w) (0, 0, 0)) as [[sumPV sumV] sumPV2].
    cbn [fst] in Hl. rewrite <- Hl. cbn. repeat split.
Qed.

Lemma rolling_feed (n : nat) (ticks : list Market.MarketTick) (c : t) :
  (0 < n)%nat -> rollingWindow_ c = n -> tickWindow_ c = [] ->
  let c' := vwapFeed c ticks in
  rollingWindow_ c' = n /\
  tickWindow_ c' = lastN n ticks /\
  (ticks <> [] -> vwap_ c' = vwap.computeVWAP (lastN n ticks)).
Proof.
  intros Hn Hw He. induction ticks as [|tick ticks IH] using rev_ind;
    cbv zeta.
  - cbn. split; [exact Hw|]. split; [exact He|]. intros H; contradiction.
  - rewrite vwapFeed_snoc. cbv zeta in IH. destruct IH as (Hw1 & Ht1 & _).
    set (c1 := vwapFeed c ticks) in *.
    unfold onTick. rewrite Hw1.
    replace (0 <? n)%nat with true by (symmetry; apply Nat.ltb_lt; exact Hn).
    match goal with
    | |- context [updateRollingVWAP ?x] =>
        destruct (updateRollingVWAP_vwap x) as (Hv & Ht & Hr);
        set (c2 := updateRollingVWAP x) in *
    end.
    cbn [rollingWindow_ tickWindow_ vwap_] in *.
    rewrite Ht1, lastN_snoc in Ht by exact Hn.
    rewrite Ht1, lastN_snoc in Hv by exact Hn.
    split; [exact Hr|]. split; [exact Ht|]. intros _. exact Hv.
Qed.

(** X22: in rolling mode with a window of [n > 0] ticks a calculator
    that starts with an empty window keeps the last [n] ticks, never
    more, and reports exactly what [vwap::computeVWAP] computes from
    them. *)
Theorem rolling_vwap_is_batch_vwap
  (bandMultiplier : Q) (n : nat) (ticks : list Market.MarketTick) :
  (0 < n)%nat -> ticks <> [] ->
  let c := vwapFeed (create bandMultiplier n) ticks in
  tickWindow_ c = lastN n ticks /\
  (length (tickWindow_ c) <= n)%nat /\
  getVWAP c = vwap.computeVWAP (lastN n ticks).
Proof.
  intros Hn Hne. cbv zeta.
  destruct (rolling_feed n ticks (create bandMultiplier n) Hn eq_refl eq_refl)
    as (_ & Ht & Hv). cbv zeta in *.
  split; [exact Ht|]. split; [rewrite Ht; apply lastN_length|].
  exact (Hv Hne).
Qed.

Lemma rolling_vwap_is_batch_vwap_witness :
  let ticks := [Market.mkTick "AAPL" 100 1 1%Z;
                Market.mkTick "AAPL" 110 3 2%Z;
                Market.mkTick "AAPL" 120 2 3%Z] in
  let c := vwapFeed (create 2 2) ticks in
  tickWindow_ c = lastN 2 ticks /\
  (length (tickWindow_ c) <= 2)%nat /\
  getVWAP c = vwap.computeVWAP (lastN 2 ticks).
Proof.
  cbv zeta.
  apply (rolling_vwap_is_batch_vwap 2 2
           [Market.mkTick "AAPL" 100 1 1%Z;
            Market.mkTick "AAPL" 110 3 2%Z;
            Market.mkTick "AAPL" 120 2 3%Z]);
    [lia|discriminate].
Defined.

End VWAPProps.

(** ** alpha/microstructure: bounded memory and imbalance *)

Section MicrostructureQueryProps.
Import MicrostructureAnalyzer MicrostructureQueries.

Lemma popIfOver_same_length {A B : Type} (w : nat) (l : list A) (m : list B) :
  length l = length m -> length (popIfOver w l) = length (popIfOver w m).
Proof.
  intros H. unfold popIfOver. rewrite H.
  destruct (w <? length m)%nat; [|exact H].
  destruct l, m; cbn in *; congruence.
Qed.

Lemma onTick_memoryBounded (a : t) (tick : Market.MarketTick) :
  memoryBounded a -> memoryBounded (onTick a tick).
Proof.
  intros (H1 & H2 & H3 & H4 & H5).
  assert (Hh : (length (popIfOver 1000 (tradeHistory_ a ++ [tick])) <= 1000)%nat)
    by (apply popIfOver_fits; exact H1).
  assert (Hc : length (popIfOver 1000
                 (classifiedTrades_ a
                  ++ [classifyTrade a (Market.price tick)
                                    (Market.volume tick) 0 0]))
               = length (popIfOver 1000 (tradeHistory_ a ++ [tick])))
    by (apply popIfOver_same_length; rewrite !length_app, H2; reflexivity).
  unfold memoryBounded, onTick, setLastPrice. cbv zeta.
  match goal with |- context [if dgt ?x 0 then _ else _] => destruct (dgt x 0) end;
    unfold updatePriceImpact, updateVPINBuckets; cbv zeta;
    match goal with |- context [if dge ?x ?y then _ else _] => destruct (dge x y) end;
    cbn [recordTrade tradeHistory_ classifiedTrades_ volumeBuckets_
         priceChanges_ signedVolumes_ vpinWindow_ impactWindow_];
    (split; [exact Hh|]); (split; [exact Hc|]);
    (split; [try exact H3; apply popIfOver_fits; exact H3|]);
    try (split; [exact H4|exact H5]).
  all: rewrite !length_app; cbn [length];
    destruct (impactWindow_ a <? length (priceChanges_ a) + 1)%nat eqn:Ho;
    [apply Nat.ltb_lt in Ho|apply Nat.ltb_ge in Ho];
    (split; [|try (rewrite length_app; cbn [length]; lia)]).
  all: try (rewrite !length_app; cbn [length]; lia).
  all: destruct (priceChanges_ a), (signedVolumes_ a); cbn in *;
    rewrite ?length_app; cbn; try lia.
Qed.

(** X25: the memory of an analyzer is bounded whatever it is fed: it
    never keeps more than 1000 ticks, [vpinWindow] buckets and
    [impactWindow] price changes, and the queues that are filled
    together (ticks and classifications, price changes and signed
    volumes) always have the same length. *)
Theorem analyzer_memory_bounded
  (bucketSize vpinWindow impactWindow : nat) (ticks : list Market.MarketTick) :
  let a := feedTicks (create bucketSize vpinWindow impactWindow) ticks in
  (length (tradeHistory_ a) <= 1000)%nat /\
  length (classifiedTrades_ a) = length (tradeHistory_ a) /\
  (length (volumeBuckets_ a) <= vpinWindow)%nat /\
  length (signedVolumes_ a) = length (priceChanges_ a) /\
  (length (priceChanges_ a) <= impactWindow)%nat.
Proof.
  cbv zeta.
  assert (H : forall ticks a, memoryBounded a ->
                memoryBounded (feedTicks a ticks) /\
                vpinWindow_ (feedTicks a ticks) = vpinWindow_ a /\
                impactWindow_ (feedTicks a ticks) = impactWindow_ a).
  { clear ticks. unfold feedTicks.
    induction ticks as [|tick ticks IH]; intros a Ha; cbn [fold_left].
    - split; [exact Ha|]. split; reflexivity.
    - destruct (IH (onTick a tick) (onTick_memoryBounded a tick Ha))
        as (Hm & Hv & Hi).
      destruct (onTick_config a tick) as (_ & Hv' & Hi').
      split; [exact Hm|]. split; congruence. }
  destruct (H ticks (create bucketSize vpinWindow impactWindow))
    as (Hm & Hv & Hi).
  { unfold memoryBounded. cbn. repeat split; lia. }
  unfold memoryBounded in Hm. rewrite Hv, Hi in Hm. exact Hm.
Qed.




End MicrostructureQueryProps.

(** ** alpha/indicators: the range of the RSI, and the VWAP *)

Section IndicatorProps.
Import indicators.



Lemma fold_left_over_map {A B C : Type} (f : A -> C -> A) (g : B -> C)
  (l : list B) (a : A) :
  fold_left f (map g l) a = fold_left (fun a x => f a (g x)) l a.
Proof.
  revert a. induction l as [|x l IH]; intros a; [reflexivity|].
  cbn [map fold_left]. apply IH.
Qed.

Lemma simple_vwap_loop (ticks : list Market.MarketTick) (st : Q * Q) :
  fold_left (simpleVWAPStep (map Market.price ticks) (map Market.volume ticks))
            (seq 0 (length ticks)) st
  = fold_left vwap.vwapStep ticks st.
Proof.
  revert st. induction ticks as [|tick ticks IH]; intros st; [reflexivity|].
  cbn [length seq fold_left].
  rewrite <- seq_shift, fold_left_over_map.
  rewrite <- IH. reflexivity.
Qed.

(** X30: the indicator [computeSimpleVWAP], given the prices and the
    volumes of a list of ticks, returns exactly what [vwap::computeVWAP]
    returns for the ticks. *)
Theorem simple_vwap_is_batch_vwap (ticks : list Market.MarketTick) :
  computeSimpleVWAP (map Market.price ticks) (map Market.volume ticks)
  = vwap.computeVWAP ticks.
Proof.
  unfold computeSimpleVWAP, vwap.computeVWAP.
  rewrite !length_map, Nat.eqb_refl. cbn [negb orb].
  destruct ticks as [|tick ticks]; [reflexivity|].
  change (length (tick :: ticks) =? 0)%nat with false. cbv iota.
  rewrite simple_vwap_loop. reflexivity.
Qed.

End IndicatorProps.

(** ** Instances of the candle properties *)

Section CandleFeedInstances.
Import CandleAggregator.

Lemma candles_well_shaped_witness :
  wellShaped
    (currentCandle
       (fst (candleFeed 1 (create 60 true)
                        [(100, 1, 0%Z); (101, 2, 30%Z); (99, 1, 45%Z)]))).
Proof.
  apply (proj2 (candles_well_shaped 1 60 true
                  [(100, 1, 0%Z); (101, 2, 30%Z); (99, 1, 45%Z)])).
  reflexivity.
Defined.

Lemma candles_contiguous_witness :
  exists c1 c2,
    nth_error (snd (candleFeed 1 (create 60 true)
                      [(100, 1, 0%Z); (101, 2, 60%Z); (99, 1, 130%Z)]))
              0 = Some c1 /\
    nth_error (snd (candleFeed 1 (create 60 true)
                      [(100, 1, 0%Z); (101, 2, 60%Z); (99, 1, 130%Z)]))
              1 = Some c2 /\
    endTime c1 = startTime c2.
Proof.
  eexists. eexists.
  split; [vm_compute; reflexivity|].
  split; [vm_compute; reflexivity|].
  apply (proj2 (candles_contiguous 1 60 true
                  [(100, 1, 0%Z); (101, 2, 60%Z); (99, 1, 130%Z)]) 0%nat);
    vm_compute; reflexivity.
Defined.

End CandleFeedInstances.

(** ** Profit factor *)

Lemma accumulate_cons (x : Q) (l : list Q) :
  accumulate (x :: l) == x + accumulate l.
Proof.
  unfold accumulate at 1. cbn [fold_left]. rewrite accumulate_from. lra.
Qed.

Lemma profit_factor_loop (rs : list Q) (w l : Q) :
  let st := fold_left
              (fun (st : Q * Q) r =>
                 if dgt r 0 then (fst st + r, snd st)
                 else (fst st, snd st + Qabs r))
              rs (w, l) in
  fst st == w + sumWins rs /\ snd st == l + sumAbsLosses rs.
Proof.
  revert w l. induction rs as [|r rs IH]; intros w l; cbn [fold_left].
  - unfold sumWins, sumAbsLosses, accumulate; cbn. split; lra.
  - unfold sumWins, sumAbsLosses, dlt in *. cbn [List.filter].
    destruct (dgt r 0) eqn:Hr.
    + apply dgt_true in Hr.
      assert (Hn : dgt 0 r = false) by (apply dgt_false; lra).
      rewrite Hn. cbn [fst snd].
      destruct (IH (w + r) l) as [H1 H2]. cbv zeta in H1, H2.
      rewrite accumulate_cons. split; [rewrite H1|rewrite H2]; lra.
    + apply dgt_false in Hr.
      cbn [fst snd]. destruct (IH w (l + Qabs r)) as [H1 H2].
      cbv zeta in H1, H2.
      destruct (dgt 0 r) eqn:Hn.
      * cbn [map]. rewrite accumulate_cons.
        split; [rewrite H1|rewrite H2]; lra.
      * apply dgt_false in Hn.
        assert (Hz : Qabs r == 0) by (rewrite Qabs_neg by lra; lra).
        split; [rewrite H1|rewrite H2; rewrite Hz]; lra.
Qed.

(** X32: [computeProfitFactor] returns, for every return series, the sum
    of the positive returns over the sum of the absolute values of the
    negative ones, both added in the order of the series, when the
    series has a loss, and 0 when there is no loss to divide by. *)
Theorem computeProfitFactor_spec (rs : list Q) :
  (0 < sumAbsLosses rs ->
   Sharpe.computeProfitFactor rs == sumWins rs / sumAbsLosses rs) /\
  (~ 0 < sumAbsLosses rs -> Sharpe.computeProfitFactor rs == 0).
Proof.
  unfold Sharpe.computeProfitFactor.
  destruct rs as [|r0 rs0].
  { split; intros H; [|reflexivity].
    exfalso. revert H. vm_compute. intros H. discriminate H. }
  pose proof (profit_factor_loop (r0 :: rs0) 0 0) as H. cbv zeta in H.
  destruct (fold_left _ (r0 :: rs0) (0, 0)) as [sw sl].
  cbn [fst snd] in H. destruct H as [Hw Hl].
  rewrite Qplus_0_l in Hw, Hl.
  destruct (dgt sl 0) eqn:Hd.
  - apply dgt_true in Hd. split; intros HL.
    + rewrite Hw, Hl. reflexivity.
    + lra.
  - apply dgt_false in Hd. split; intros HL; [lra|reflexivity].
Qed.

Section ProfitFactorClaim.
Import Backtester BacktesterExit.

(** C4, evaluated on the code.  With short selling switched off, buy at
    100, sell at 110, buy at 128 and sell at 64.  The two calls of
    [exitPosition] close one winning position, with a profit of 497.9,
    and one losing position; the profit factor of the specification, the
    sum of the wins over the sum of the absolute losses, is therefore a
    positive number.  [run] records the two trades after [exitPosition]
    has zeroed the members, both with PnL 0, and reports the profit
    factor 0. *)
Theorem run_profit_factor_misses_trades (dsqrt : Q -> Q) :
  let r := run dsqrt unit twoTrades_signal (create longOnlyConfig) tt
               twoTrades_data in
  exists win loss,
    exitPositionPnl (afterTicks 1) (Market.mkTick "AAPL" 110 1 2000)
    = Some win /\
    exitPositionPnl (afterTicks 3) (Market.mkTick "AAPL" 64 1 4000)
    = Some loss /\
    win == 497.9 /\ loss < 0 /\
    0 < sumAbsLosses [win; loss] /\
    0 < sumWins [win; loss] / sumAbsLosses [win; loss] /\
    length (trades r) = 2%nat /\
    Forall (fun tr => pnl tr == 0) (trades r) /\
    profitFactor r == 0.
Proof.
  cbv zeta. eexists. eexists.
  split; [vm_compute; reflexivity|].
  split; [vm_compute; reflexivity|].
  split; [vm_compute; reflexivity|].
  split; [vm_compute; reflexivity|].
  split; [vm_compute; reflexivity|].
  split; [vm_compute; reflexivity|].
  split; [vm_compute; reflexivity|].
  split; [|vm_compute; reflexivity].
  vm_compute. repeat constructor.
Qed.

End ProfitFactorClaim.

(** ** Rounding and division by zero, in binary64 *)

Section Binary64Props.
Import PrimFloat.
Local Open Scope float_scope.


(** C5, evaluated on the code.  An analyzer constructed with bucket size
    0 is fed two valid ticks of price 100 and volume 0.  Each tick
    completes a bucket of imbalance 0, so that two buckets are held;
    [computeVPIN] divides their mean 0 by the bucket size 0, and the NaN
    goes through [std::min(std::max(vpin, 0.0), 1.0)] unchanged: the
    [vpin] and the [toxicity] that [getVPIN] returns are NaN. *)
Theorem vpin_zero_bucket_size_is_nan :
  let ticks := [Binary64.mkTick "AAPL" 100 0 1%Z;
                Binary64.mkTick "AAPL" 100 0 2%Z] in
  let a := feedTicks64 (Binary64.MicrostructureAnalyzer.create 0 50 100)
                       ticks in
  let m := Binary64.MicrostructureAnalyzer.getVPIN a in
  forallb validTick64 ticks = true /\
  Binary64.MicrostructureAnalyzer.volumeBuckets_ a = [0; 0] /\
  is_nan (Binary64.MicrostructureAnalyzer.vpin m) = true /\
  is_nan (Binary64.MicrostructureAnalyzer.toxicity m) = true /\
  (0 <=? Binary64.MicrostructureAnalyzer.vpin m) = false /\
  (Binary64.MicrostructureAnalyzer.vpin m <=? 1) = false.
Proof.
  cbv zeta. repeat split; vm_compute; reflexivity.
Qed.

End Binary64Props.
